(** * The annotator launcher ([analysis/annotator.py])

    The script computes three module globals from its own location, writes
    a one-line path-mapping file into an output directory and starts the
    annotator with a fixed argument list.  This development embeds the
    script over an explicit model of the operating-system services it
    calls and proves the properties of its specification. *)

From Stdlib Require Import Ascii String.
From stdpp Require Import base option list strings gmap fin_maps.

(** ** Exceptions and results *)

(** The Python exceptions that the modelled library calls can raise. *)
Inductive exn : Type :=
  | IndexError
  | ValueError
  | RuntimeError
  | FileExistsError
  | FileNotFoundError
  | NotADirectoryError
  | IsADirectoryError
  | PermissionError
  | OSError
  | UnicodeEncodeError.

#[global] Instance exn_eq_dec : EqDecision exn.
Proof. solve_decision. Defined.

(** A call either returns a value or raises. *)
Inductive result (A : Type) : Type :=
  | Ok (a : A)
  | Raise (e : exn).
Arguments Ok {A} a.
Arguments Raise {A} e.

Definition rbind {A B} (r : result A) (k : A -> result B) : result B :=
  match r with
  | Ok a => k a
  | Raise e => Raise e
  end.

(** The exception carried by a result, if any. *)
Definition raised {A} (r : result A) : option exn :=
  match r with
  | Ok _ => None
  | Raise e => Some e
  end.

(** ** [str.format] with automatically numbered fields *)

Definition TAB : ascii := ascii_of_nat 9.
Definition NL : ascii := ascii_of_nat 10.
Definition LBRACE : ascii := "{"%char.
Definition RBRACE : ascii := "}"%char.

(** [format tmpl args] is [tmpl.format] applied to [args], for templates whose
    replacement fields are all the empty field [{}]: each [{}] is replaced
    by the next positional argument, a doubled brace stands for one brace,
    and positional arguments that are left over are ignored.  Too few
    arguments raise [IndexError]; a brace that opens or closes anything
    else raises [ValueError] (named, numbered and formatted fields are
    outside the fragment the script uses). *)
Fixpoint format (tmpl : string) (args : list string) : result string :=
  match tmpl with
  | EmptyString => Ok EmptyString
  | String c rest =>
      if Ascii.eqb c LBRACE then
        match rest with
        | EmptyString => Raise ValueError
        | String d rest' =>
            if Ascii.eqb d LBRACE then
              rbind (format rest' args) (fun s => Ok (String LBRACE s))
            else if Ascii.eqb d RBRACE then
              match args with
              | [] => Raise IndexError
              | a :: args' =>
                  rbind (format rest' args') (fun s => Ok (a +:+ s))
              end
            else Raise ValueError
        end
      else if Ascii.eqb c RBRACE then
        match rest with
        | EmptyString => Raise ValueError
        | String d rest' =>
            if Ascii.eqb d RBRACE then
              rbind (format rest' args) (fun s => Ok (String RBRACE s))
            else Raise ValueError
        end
      else rbind (format rest args) (fun s => Ok (String c s))
  end.

(** ** Resolved paths ([pathlib]) *)

(** An absolute, resolved path is the list of its components, the one
    nearest to the root first; the root itself is the empty list. *)
Abbreviation path := (list string).

(** The components of a path, each after a slash. *)
Fixpoint join_parts (p : path) : string :=
  match p with
  | [] => EmptyString
  | c :: p' => "/" +:+ c +:+ join_parts p'
  end.

(** [str(p)]: the root is a single slash. *)
Definition str_path (p : path) : string :=
  match p with
  | [] => "/"
  | _ => join_parts p
  end.

(** The logical parent of a path; the root is its own parent. *)
Definition parent (p : path) : path := take (length p - 1) p.

(** [p.parents[i]]: the sequence of ancestors has one entry per component,
    and an index past its end raises [IndexError]. *)
Definition parents (p : path) (i : nat) : result path :=
  if decide (i < length p) then Ok (take (length p - S i) p)
  else Raise IndexError.

(** ** The environment of a run *)

(** What the interpreter and the platform hand to the script: the resolved
    location of the script file ([Path(__file__).resolve()]), the home
    directory of the user when the platform can determine one, the process
    environment variables and the command-line arguments. *)
Record Env : Type := {
  resolved_file : path;
  home_dir : option path;
  environ : list (string * string);
  argv : list string
}.

(** [Path.home()] raises [RuntimeError] when no home directory can be
    determined. *)
Definition Path_home (env : Env) : result path :=
  match home_dir env with
  | Some h => Ok h
  | None => Raise RuntimeError
  end.

(** ** Module globals *)

Record Globals : Type := {
  REPO : string;
  OUT_DIR : string;
  ANNOTATOR_JAR : string
}.

(** The three assignments at the top of the module, in order. *)
Definition module_globals (env : Env) : result Globals :=
  rbind (parents (resolved_file env) 1) (fun anchor =>
  let repo := str_path anchor in
  rbind (format "{}/annotator-out" [repo]) (fun out_dir =>
  rbind (Path_home env) (fun home =>
  rbind (format "/var/core.jar" [str_path home]) (fun jar =>
  Ok {| REPO := repo; OUT_DIR := out_dir; ANNOTATOR_JAR := jar |})))).

(** ** The argument list *)

(** The flags that the source keeps in comments. *)
Definition disabled_flags : list string :=
  ["-rboserr"; "-ch"; "-dc"; "-dol"; "--disable-parallel-processing"].

(** The list [commands] as [run_annotator] builds it: it starts empty and
    every [+=] appends one more chunk. *)
Definition commands (g : Globals) : result (list string) :=
  let commands := [] in
  let commands := commands ++ ["java"; "-jar"; ANNOTATOR_JAR g] in
  let commands := commands ++ ["-d"; OUT_DIR g] in
  rbind (format "cd {} && ./build.sh" [REPO g]) (fun bc =>
  let commands := commands ++ ["-bc"; bc] in
  rbind (format "{}/paths.tsv" [OUT_DIR g]) (fun cp =>
  let commands := commands ++ ["-cp"; cp] in
  let commands := commands ++ ["-i"; "edu.Initializer"] in
  let commands := commands ++ ["-n"; "com.example.x.ucrtainting.qual.RUntainted"] in
  let commands := commands ++ ["-cn"; "UCRTaint"] in
  let commands := commands ++ ["--depth"; "25"] in
  Ok commands)).

(** The text of the single line that [prepare] writes. *)
Definition paths_line (g : Globals) : result string :=
  rbind (format "{}/checker.xml" [OUT_DIR g]) (fun checker =>
  rbind (format "{}/scanner.xml" [OUT_DIR g]) (fun scanner =>
  format (String LBRACE (String RBRACE (String TAB
           (String LBRACE (String RBRACE (String NL EmptyString))))))
         [checker; scanner])).

(** ** Operating-system services *)

(** The library calls the script makes, as an interface over a world [W]
    with file objects [H]: [os.makedirs(name, exist_ok=...)],
    [open(name, 'w')], the [write] and [close] of a file object, and
    [subprocess.call(args)], which waits for the child and returns its
    exit code.  Every call returns or raises, and leaves a world behind in
    both cases. *)
Class OS (W H : Type) : Type := {
  os_makedirs : string -> bool -> W -> result unit * W;
  os_open_w : string -> W -> result H * W;
  os_write : H -> string -> W -> result nat * W;
  os_close : H -> W -> result unit * W;
  os_call : list string -> W -> result Z * W
}.

(** One library call and whether it raised. *)
Inductive event : Type :=
  | EvMakedirs (name : string) (exist_ok : bool) (err : option exn)
  | EvOpen (name : string) (err : option exn)
  | EvWrite (data : string) (err : option exn)
  | EvClose (err : option exn)
  | EvCall (args : list string) (err : option exn).

Definition event_error (ev : event) : option exn :=
  match ev with
  | EvMakedirs _ _ err | EvOpen _ err | EvWrite _ err
  | EvClose err | EvCall _ err => err
  end.

(** The state threaded through the script: the world and the library
    calls made so far, oldest first. *)
Record state (W : Type) : Type := {
  world : W;
  trace : list event
}.
Arguments world {W} s.
Arguments trace {W} s.

Definition log {W} (s : state W) (w : W) (ev : event) : state W :=
  {| world := w; trace := trace s ++ [ev] |}.

(** Computations that read and change the state and may raise. *)
Definition M (W A : Type) : Type := state W -> result A * state W.

Definition ret {W A} (a : A) : M W A := fun s => (Ok a, s).

Definition bind {W A B} (m : M W A) (k : A -> M W B) : M W B :=
  fun s =>
    match m s with
    | (Ok a, s') => k a s'
    | (Raise e, s') => (Raise e, s')
    end.

(** A pure computation that may raise. *)
Definition lift {W A} (r : result A) : M W A := fun s => (r, s).

Declare Scope launcher_scope.
Delimit Scope launcher_scope with launcher.
Notation "x <- m ;; k" := (bind m (fun x => k))
  (at level 100, m at next level, right associativity) : launcher_scope.
Notation "m ;;; k" := (bind m (fun _ => k))
  (at level 100, right associativity) : launcher_scope.

Section Launcher.
Context {W H : Type} {os : OS W H}.

Local Open Scope launcher_scope.

Definition makedirs (name : string) (exist_ok : bool) : M W unit :=
  fun s =>
    let '(r, w) := os_makedirs name exist_ok (world s) in
    (r, log s w (EvMakedirs name exist_ok (raised r))).

Definition open_w (name : string) : M W H :=
  fun s =>
    let '(r, w) := os_open_w name (world s) in
    (r, log s w (EvOpen name (raised r))).

Definition write (o : H) (data : string) : M W nat :=
  fun s =>
    let '(r, w) := os_write o data (world s) in
    (r, log s w (EvWrite data (raised r))).

Definition close (o : H) : M W unit :=
  fun s =>
    let '(r, w) := os_close o (world s) in
    (r, log s w (EvClose (raised r))).

Definition call (args : list string) : M W Z :=
  fun s =>
    let '(r, w) := os_call args (world s) in
    (r, log s w (EvCall args (raised r))).

(** [with open(name, 'w') as o: body]: the file is closed when the body
    is left, whether it returned or raised; an exception of the body
    goes on after the close, unless the close raises one of its own. *)
Definition with_open_w {A} (name : string) (body : H -> M W A) : M W A :=
  o <- open_w name ;;
  fun s =>
    match body o s with
    | (Ok a, s1) =>
        match close o s1 with
        | (Ok _, s2) => (Ok a, s2)
        | (Raise e, s2) => (Raise e, s2)
        end
    | (Raise e, s1) =>
        match close o s1 with
        | (Ok _, s2) => (Raise e, s2)
        | (Raise e', s2) => (Raise e', s2)
        end
    end.

Definition prepare (g : Globals) : M W unit :=
  makedirs (OUT_DIR g) true ;;;
  name <- lift (format "{}/paths.tsv" [OUT_DIR g]) ;;
  with_open_w name (fun o =>
    line <- lift (paths_line g) ;;
    write o line ;;;
    ret tt).

Definition run_annotator (g : Globals) : M W unit :=
  prepare g ;;;
  commands <- lift (commands g) ;;
  call commands ;;;
  ret tt.

(** Running the script: the module globals are computed, the functions
    are defined, and the last line calls [run_annotator]. *)
Definition launcher (env : Env) : M W unit :=
  g <- lift (module_globals env) ;;
  run_annotator g.

End Launcher.

(** The exit status of the interpreter: 0 when the script ran to its end,
    1 when an exception reached the top level. *)
Definition exit_status {A} (r : result A) : Z :=
  match r with
  | Ok _ => 0%Z
  | Raise _ => 1%Z
  end.

(** ** A file-system model of the services *)

(** Path names are split at slashes; empty components (a leading, a
    doubled or a trailing slash) name nothing.  The names the script
    passes are built from a resolved path and have no dot components, so
    these are not interpreted. *)
Fixpoint split_from (cur : string) (s : string) : list string :=
  match s with
  | EmptyString =>
      match cur with
      | EmptyString => []
      | _ => [cur]
      end
  | String c s' =>
      if Ascii.eqb c "/" then
        match cur with
        | EmptyString => split_from EmptyString s'
        | _ => cur :: split_from EmptyString s'
        end
      else split_from (cur +:+ String c EmptyString) s'
  end.

Definition components (name : string) : path := split_from EmptyString name.

Definition is_absolute (name : string) : bool :=
  match name with
  | String c _ => Ascii.eqb c "/"
  | EmptyString => false
  end.

(** A directory, or a regular file with its content; the flag tells
    whether the process may write to it (for a directory: make entries in
    it). *)
Inductive node : Type :=
  | Dir (writable : bool)
  | File (writable : bool) (data : string).

#[global] Instance node_eq_dec : EqDecision node.
Proof. solve_decision. Defined.

(** What the file tree does not show: the device may refuse to make a
    directory or to create or truncate a file that the tree would allow
    (a read-only mount, no space left), it may refuse the data of a file
    when they are flushed, and a text may have no encoding in the
    encoding that files are opened with. *)
Record Device : Type := {
  refuses_mkdir : path -> bool;
  refuses_open : path -> bool;
  refuses_flush : path -> string -> bool;
  encodable : string -> bool
}.

(** The file tree, keyed by resolved path, the working directory of the
    process, the device, and the text that open file objects hold back
    until they are closed.  A file object is the path it was opened on. *)
Record World : Type := {
  files : gmap path node;
  cwd : path;
  device : Device;
  pending : gmap path string
}.

Definition set_files (w : World) (fs : gmap path node) : World :=
  {| files := fs; cwd := cwd w; device := device w; pending := pending w |}.

Definition set_pending (w : World) (bufs : gmap path string) : World :=
  {| files := files w; cwd := cwd w; device := device w; pending := bufs |}.

Definition resolve (w : World) (name : string) : path :=
  (if is_absolute name then [] else cwd w) ++ components name.

Definition exists_path (fs : gmap path node) (p : path) : bool :=
  match fs !! p with
  | Some _ => true
  | None => false
  end.

Definition isdir (fs : gmap path node) (p : path) : bool :=
  match fs !! p with
  | Some (Dir _) => true
  | _ => false
  end.

(** [mkdir(2)]: the entry must be new and its parent a directory the
    process may write to, and the device must not refuse ([refuse]).  The
    new directory is writable. *)
Definition sys_mkdir (refuse : path -> bool) (p : path) (fs : gmap path node)
  : result unit * gmap path node :=
  match fs !! p with
  | Some _ => (Raise FileExistsError, fs)
  | None =>
      match fs !! parent p with
      | None => (Raise FileNotFoundError, fs)
      | Some (File _ _) => (Raise NotADirectoryError, fs)
      | Some (Dir false) => (Raise PermissionError, fs)
      | Some (Dir true) =>
          if refuse p then (Raise OSError, fs)
          else (Ok tt, <[p := Dir true]> fs)
      end
  end.

(** [os.makedirs] on a path given last component first.  When the parent
    is missing it is made first, by the same procedure, and a
    [FileExistsError] from there is passed over; then the directory itself
    is made, and with [exist_ok] a failure of that is forgiven when the
    path is a directory all the same. *)
Fixpoint makedirs_rev (refuse : path -> bool) (exist_ok : bool)
    (rname : list string) (fs : gmap path node)
  : result unit * gmap path node :=
  let name := reverse rname in
  let '(r, fs1) :=
    match rname with
    | [] => (Ok tt, fs)
    | _ :: rhead =>
        if exists_path fs (reverse rhead) then (Ok tt, fs)
        else
          match makedirs_rev refuse exist_ok rhead fs with
          | (Raise FileExistsError, fs') => (Ok tt, fs')
          | other => other
          end
    end in
  match r with
  | Raise e => (Raise e, fs1)
  | Ok _ =>
      match sys_mkdir refuse name fs1 with
      | (Raise e, fs2) =>
          if negb exist_ok || negb (isdir fs2 name) then (Raise e, fs2)
          else (Ok tt, fs2)
      | ok => ok
      end
  end.

(** [open(2)] for writing, creating or truncating; the device may
    refuse what the tree allows. *)
Definition sys_open_w (refuse : path -> bool) (p : path) (fs : gmap path node)
  : result path * gmap path node :=
  match fs !! p with
  | Some (Dir _) => (Raise IsADirectoryError, fs)
  | Some (File false _) => (Raise PermissionError, fs)
  | Some (File true _) =>
      if refuse p then (Raise OSError, fs)
      else (Ok p, <[p := File true EmptyString]> fs)
  | None =>
      match fs !! parent p with
      | None => (Raise FileNotFoundError, fs)
      | Some (File _ _) => (Raise NotADirectoryError, fs)
      | Some (Dir false) => (Raise PermissionError, fs)
      | Some (Dir true) =>
          if refuse p then (Raise OSError, fs)
          else (Ok p, <[p := File true EmptyString]> fs)
      end
  end.

(** [write(2)]: the data are appended to the file. *)
Definition sys_write (o : path) (data : string) (fs : gmap path node)
  : result nat * gmap path node :=
  match fs !! o with
  | Some (File wr old) => (Ok (String.length data), <[o := File wr (old +:+ data)]> fs)
  | _ => (Raise OSError, fs)
  end.

Section Posix.
(** The program that an argument list starts is not part of the script:
    [child] says whether it could be started, how it changed the file
    tree and with which code it exited. *)
Variable child : list string -> gmap path node -> result Z * gmap path node.

Definition posix_makedirs (name : string) (exist_ok : bool) (w : World)
  : result unit * World :=
  if decide (name = EmptyString) then (Raise FileNotFoundError, w)
  else
    let '(r, fs) :=
      makedirs_rev (refuses_mkdir (device w)) exist_ok
        (reverse (resolve w name)) (files w) in
    (r, set_files w fs).

(** [open(name, 'w')]: the file is created or truncated at once, and the
    new file object holds no text yet. *)
Definition posix_open_w (name : string) (w : World) : result path * World :=
  if decide (name = EmptyString) then (Raise FileNotFoundError, w)
  else
    let '(r, fs) :=
      sys_open_w (refuses_open (device w)) (resolve w name) (files w) in
    match r with
    | Ok o => (Ok o, set_pending (set_files w fs) (<[o := EmptyString]> (pending w)))
    | Raise e => (Raise e, set_files w fs)
    end.

(** [o.write(data)] on a text file: the text is encoded, which raises
    [UnicodeEncodeError] when it has no encoding, and is held back in the
    file object; a closed file object raises [ValueError]. *)
Definition posix_write (o : path) (data : string) (w : World)
  : result nat * World :=
  match pending w !! o with
  | None => (Raise ValueError, w)
  | Some held =>
      if encodable (device w) data then
        (Ok (String.length data), set_pending w (<[o := held +:+ data]> (pending w)))
      else (Raise UnicodeEncodeError, w)
  end.

(** [o.close()]: the text held back is flushed to the file, which the
    device may refuse, and the file object is closed in either case;
    closing a closed file object does nothing. *)
Definition posix_close (o : path) (w : World) : result unit * World :=
  match pending w !! o with
  | None => (Ok tt, w)
  | Some held =>
      let w' := set_pending w (delete o (pending w)) in
      if refuses_flush (device w) o held then (Raise OSError, w')
      else
        match sys_write o held (files w) with
        | (Ok _, fs) => (Ok tt, set_files w' fs)
        | (Raise e, fs) => (Raise e, set_files w' fs)
        end
  end.

Definition posix_call (args : list string) (w : World) : result Z * World :=
  let '(r, fs) := child args (files w) in
  (r, set_files w fs).

Definition posix : OS World path := {|
  os_makedirs := posix_makedirs;
  os_open_w := posix_open_w;
  os_write := posix_write;
  os_close := posix_close;
  os_call := posix_call
|}.
End Posix.

(** ** Sample runs *)

Module Sample.
(** A checkout at [/r], with the script at [/r/analysis/annotator.py]. *)
Definition env : Env := {|
  resolved_file := ["r"; "analysis"; "annotator.py"];
  home_dir := Some ["home"; "u"];
  environ := [];
  argv := ["analysis/annotator.py"]
|}.

Definition g : Globals := {|
  REPO := "/r";
  OUT_DIR := "/r/annotator-out";
  ANNOTATOR_JAR := "/var/core.jar"
|}.

(** A device that refuses nothing, and an encoding for every text. *)
Definition sound : Device := {|
  refuses_mkdir := fun _ => false;
  refuses_open := fun _ => false;
  refuses_flush := fun _ _ => false;
  encodable := fun _ => true
|}.

Definition fresh : World := {|
  files := list_to_map
    [ ([], Dir true);
      (["r"], Dir true);
      (["r"; "analysis"], Dir true);
      (["r"; "analysis"; "annotator.py"], File true "...") ];
  cwd := ["r"];
  device := sound;
  pending := ∅
|}.

(** The output directory is there and holds a file of an earlier tool
    run and a stale [paths.tsv]. *)
Definition used : World := {|
  files := list_to_map
    [ ([], Dir true);
      (["r"], Dir true);
      (["r"; "annotator-out"], Dir true);
      (["r"; "annotator-out"; "log.txt"], File true "old log");
      (["r"; "annotator-out"; "paths.tsv"], File true "stale") ];
  cwd := ["r"];
  device := sound;
  pending := ∅
|}.

(** A child that starts and exits with the given code, touching nothing. *)
Definition exits (code : Z) (args : list string) (fs : gmap path node)
  : result Z * gmap path node := (Ok code, fs).

(** No such program. *)
Definition missing (args : list string) (fs : gmap path node)
  : result Z * gmap path node := (Raise FileNotFoundError, fs).

Definition start (w : World) : state World := {| world := w; trace := [] |}.

(** The checkout is closed to the process and has no output directory. *)
Definition locked : World := {|
  files := list_to_map
    [ ([], Dir true);
      (["r"], Dir false);
      (["r"; "analysis"], Dir true) ];
  cwd := ["r"];
  device := sound;
  pending := ∅
|}.

(** A file is in the place of the output directory. *)
Definition blocked : World := {|
  files := list_to_map
    [ ([], Dir true);
      (["r"], Dir true);
      (["r"; "annotator-out"], File true "not a directory") ];
  cwd := ["r"];
  device := sound;
  pending := ∅
|}.

(** [paths.tsv] is there and closed to the process. *)
Definition readonly : World := {|
  files := list_to_map
    [ ([], Dir true);
      (["r"], Dir true);
      (["r"; "annotator-out"], Dir true);
      (["r"; "annotator-out"; "paths.tsv"], File false "kept") ];
  cwd := ["r"];
  device := sound;
  pending := ∅
|}.

(** The device makes no directory: no space is left. *)
Definition full : World := {|
  files := files fresh;
  cwd := ["r"];
  device := {|
    refuses_mkdir := fun _ => true;
    refuses_open := fun _ => false;
    refuses_flush := fun _ _ => false;
    encodable := fun _ => true
  |};
  pending := ∅
|}.

(** The used checkout, where the line has no encoding. *)
Definition undecodable : World := {|
  files := files used;
  cwd := ["r"];
  device := {|
    refuses_mkdir := fun _ => false;
    refuses_open := fun _ => false;
    refuses_flush := fun _ _ => false;
    encodable := fun _ => false
  |};
  pending := ∅
|}.

(** The used checkout, where the device takes no data. *)
Definition no_space : World := {|
  files := files used;
  cwd := ["r"];
  device := {|
    refuses_mkdir := fun _ => false;
    refuses_open := fun _ => false;
    refuses_flush := fun _ _ => true;
    encodable := fun _ => true
  |};
  pending := ∅
|}.


End Sample.

(** ** Notions used in the statements *)

(** The line of [paths.tsv], spelled out. *)
Definition line_text (out_dir : string) : string :=
  (out_dir +:+ "/checker.xml") +:+
  String TAB ((out_dir +:+ "/scanner.xml") +:+ String NL EmptyString).

(** The library calls that a computation adds to the trace. *)
Definition emitted {W A} (m : M W A) (s : state W) : list event :=
  drop (length (trace s)) (trace (snd (m s))).

(** The error that leaves a [with] block when the body ended with
    [body] and the close with [closing]. *)
Definition with_error (body closing : option exn) : option exn :=
  match closing with
  | Some e => Some e
  | None => body
  end.

Definition outcome (err : option exn) : result unit :=
  match err with
  | Some e => Raise e
  | None => Ok tt
  end.

(** The four calls of a [prepare] that returned. *)
Definition prepare_events (g : Globals) : list event :=
  [EvMakedirs (OUT_DIR g) true None;
   EvOpen (OUT_DIR g +:+ "/paths.tsv") None;
   EvWrite (line_text (OUT_DIR g)) None;
   EvClose None].

(** The ways a call of [run_annotator] can go: the calls it makes and
    what it returns or raises. *)
Inductive run_shape (g : Globals) : list event → result unit → Prop :=
  | shape_makedirs e :
      run_shape g [EvMakedirs (OUT_DIR g) true (Some e)] (Raise e)
  | shape_open e :
      run_shape g
        [EvMakedirs (OUT_DIR g) true None;
         EvOpen (OUT_DIR g +:+ "/paths.tsv") (Some e)]
        (Raise e)
  | shape_with we ce e :
      with_error we ce = Some e →
      run_shape g
        [EvMakedirs (OUT_DIR g) true None;
         EvOpen (OUT_DIR g +:+ "/paths.tsv") None;
         EvWrite (line_text (OUT_DIR g)) we;
         EvClose ce]
        (Raise e)
  | shape_call args err :
      commands g = Ok args →
      run_shape g (prepare_events g ++ [EvCall args err]) (outcome err).

Definition event_kind (ev : event) : nat :=
  match ev with
  | EvMakedirs _ _ _ => 0
  | EvOpen _ _ => 1
  | EvWrite _ _ => 2
  | EvClose _ => 3
  | EvCall _ _ => 4
  end.

(** The same platform with another behaviour of the child. *)
Definition with_call {W H} (os : OS W H)
    (call' : list string → W → result Z * W) : OS W H := {|
  os_makedirs := os_makedirs;
  os_open_w := os_open_w;
  os_write := os_write;
  os_close := os_close;
  os_call := call'
|}.

(** What holds of [fs'] and [r] after [os.makedirs(name, exist_ok=True)]
    in [fs], on a device that refuses the directories [refuse]. *)
Record makedirs_post (refuse : path -> bool) (name : path)
    (fs : gmap path node) (r : result unit) (fs' : gmap path node) : Prop := {
  (** every entry is as before, or is a new writable directory on the way
      to [name] *)
  md_grown : ∀ q,
    fs' !! q = fs !! q ∨
    (fs !! q = None ∧ fs' !! q = Some (Dir true) ∧ q `prefix_of` name);
  (** after a return the path is a directory, and its parent exists *)
  md_ok : r = Ok tt → isdir fs' name = true ∧ is_Some (fs' !! parent name);
  (** [FileExistsError] is raised only for a path that is a file *)
  md_exists : r = Raise FileExistsError → ∃ wr d, fs !! name = Some (File wr d);
  (** in a tree with a root, the causes of an exception: the directory
      that lacks the next component is closed; a file is at the path; a
      file is above it; the device refuses a missing directory *)
  md_fail : ∀ e,
    r = Raise e → is_Some (fs !! []) →
    (e = PermissionError ∧
       ∃ q c, (q ++ [c]) `prefix_of` name ∧
              fs !! (q ++ [c]) = None ∧ fs !! q = Some (Dir false)) ∨
    (e = FileExistsError ∧ ∃ wr d, fs !! name = Some (File wr d)) ∨
    (e = NotADirectoryError ∧
       ∃ q c wr d, (q ++ [c]) `prefix_of` name ∧ fs !! q = Some (File wr d)) ∨
    (e = OSError ∧
       ∃ q, q `prefix_of` name ∧ fs !! q = None ∧ refuse q = true)
}.

(** Nothing stands in the way of making [name]: no file is at it or above
    it, a directory closed to the process is [name] itself or has the
    next component already, and the device refuses none of the missing
    directories. *)
Definition passable (refuse : path -> bool) (fs : gmap path node)
    (name : path) : Prop :=
  ∀ q, q `prefix_of` name →
    match fs !! q with
    | Some (File _ _) => False
    | Some (Dir wr) =>
        wr = true ∨ q = name ∨
        ∃ c, (q ++ [c]) `prefix_of` name ∧ is_Some (fs !! (q ++ [c]))
    | None => refuse q = false
    end.

(** A file tree proper: the root is a directory, and every entry lies in
    a directory. *)
Definition tree_shaped (fs : gmap path node) : Prop :=
  isdir fs [] = true ∧
  map_Forall (λ p _, isdir fs (parent p) = true) fs.

(** How often a character occurs in a string. *)
Fixpoint count_char (c : ascii) (s : string) : nat :=
  match s with
  | EmptyString => 0
  | String d s' => (if Ascii.eqb d c then 1 else 0) + count_char c s'
  end.

(** A file name: not empty, and without a slash. *)
Definition file_name (c : string) : Prop :=
  c ≠ EmptyString ∧ count_char "/" c = 0.

(** * Properties *)

(** ** Sample evaluations *)

Example format_out_dir :
  format "{}/annotator-out" ["/r"] = Ok "/r/annotator-out".
Proof. reflexivity. Qed.

Example format_jar_ignores_home :
  format "/var/core.jar" ["/home/u"] = Ok "/var/core.jar".
Proof. reflexivity. Qed.

Example parents_script :
  parents ["r"; "analysis"; "annotator.py"] 1 = Ok ["r"].
Proof. reflexivity. Qed.

Example parents_too_short : parents ["annotator.py"] 1 = Raise IndexError.
Proof. reflexivity. Qed.

Example sample_globals : module_globals Sample.env = Ok Sample.g.
Proof. reflexivity. Qed.

Example sample_no_home :
  module_globals
    {| resolved_file := ["r"; "analysis"; "annotator.py"];
       home_dir := None; environ := []; argv := [] |} = Raise RuntimeError.
Proof. reflexivity. Qed.

Example sample_root_checkout :
  module_globals
    {| resolved_file := ["analysis"; "annotator.py"];
       home_dir := Some []; environ := []; argv := [] |} =
  Ok {| REPO := "/"; OUT_DIR := "//annotator-out";
        ANNOTATOR_JAR := "/var/core.jar" |}.
Proof. reflexivity. Qed.

Example sample_components : components "//annotator-out/" = ["annotator-out"].
Proof. reflexivity. Qed.

Example sample_fresh_run :
  let end_ := run_annotator (os := posix (Sample.exits 2)) Sample.g
                (Sample.start Sample.fresh) in
  fst end_ = Ok tt ∧
  files (world (snd end_)) !! ["r"; "annotator-out"; "paths.tsv"] =
    Some (File true (line_text "/r/annotator-out")) ∧
  length (trace (snd end_)) = 5.
Proof. vm_compute. by split_and!. Qed.

Example sample_locked :
  prepare (os := posix (Sample.exits 0)) Sample.g (Sample.start Sample.locked) =
  (Raise PermissionError,
   {| world := Sample.locked;
      trace := [EvMakedirs "/r/annotator-out" true (Some PermissionError)] |}).
Proof. vm_compute. reflexivity. Qed.

Example sample_blocked :
  fst (run_annotator (os := posix (Sample.exits 0)) Sample.g
         (Sample.start Sample.blocked)) = Raise FileExistsError.
Proof. vm_compute. reflexivity. Qed.

Example sample_readonly :
  let end_ := run_annotator (os := posix (Sample.exits 0)) Sample.g
                (Sample.start Sample.readonly) in
  fst end_ = Raise PermissionError ∧
  trace (snd end_) =
    [EvMakedirs "/r/annotator-out" true None;
     EvOpen "/r/annotator-out/paths.tsv" (Some PermissionError)].
Proof. vm_compute. by split. Qed.

(** ** Strings and formatting *)

Lemma string_app_cons c s t : String c s +:+ t = String c (s +:+ t).
Proof. reflexivity. Qed.

Lemma string_app_assoc s t u : (s +:+ t) +:+ u = s +:+ (t +:+ u).
Proof.
  induction s as [|c s IH]; [reflexivity|].
  rewrite !string_app_cons. by rewrite IH.
Qed.

Lemma string_app_empty_l s : EmptyString +:+ s = s.
Proof. reflexivity. Qed.

Lemma string_app_not_empty s c t : s +:+ String c t ≠ EmptyString.
Proof. by destruct s. Qed.

Lemma format_out_dir_eq r :
  format "{}/annotator-out" [r] = Ok (r +:+ "/annotator-out").
Proof. reflexivity. Qed.

Lemma format_jar_eq a : format "/var/core.jar" [a] = Ok "/var/core.jar".
Proof. reflexivity. Qed.

Lemma format_paths_tsv_eq d : format "{}/paths.tsv" [d] = Ok (d +:+ "/paths.tsv").
Proof. reflexivity. Qed.

Lemma format_build_eq r :
  format "cd {} && ./build.sh" [r] = Ok ("cd " +:+ r +:+ " && ./build.sh").
Proof. reflexivity. Qed.

Lemma paths_line_eq g : paths_line g = Ok (line_text (OUT_DIR g)).
Proof. reflexivity. Qed.

Lemma commands_eq g :
  commands g =
  Ok ["java"; "-jar"; ANNOTATOR_JAR g; "-d"; OUT_DIR g;
      "-bc"; "cd " +:+ REPO g +:+ " && ./build.sh";
      "-cp"; OUT_DIR g +:+ "/paths.tsv";
      "-i"; "edu.Initializer";
      "-n"; "com.example.x.ucrtainting.qual.RUntainted";
      "-cn"; "UCRTaint"; "--depth"; "25"].
Proof. reflexivity. Qed.

(** ** Paths *)

Lemma str_path_absolute p : ∃ s, str_path p = String "/" s.
Proof. destruct p as [|c p]; simpl; eauto. Qed.

Lemma parent_snoc (p : path) c : parent (p ++ [c]) = p.
Proof.
  unfold parent. rewrite length_app. simpl.
  replace (length p + 1 - 1) with (length p) by lia.
  by rewrite take_app_length.
Qed.

Lemma parent_nil : parent [] = [].
Proof. reflexivity. Qed.

Lemma parents_1 (p anchor : path) :
  parents p 1 = Ok anchor → anchor = parent (parent p).
Proof.
  unfold parents, parent. case_decide; [|done]. intros [= <-].
  rewrite length_take, take_take. f_equal. lia.
Qed.

Lemma module_globals_inv env g :
  module_globals env = Ok g →
  ∃ anchor,
    parents (resolved_file env) 1 = Ok anchor ∧
    g = {| REPO := str_path anchor;
           OUT_DIR := str_path anchor +:+ "/annotator-out";
           ANNOTATOR_JAR := "/var/core.jar" |}.
Proof.
  unfold module_globals, Path_home.
  destruct (parents (resolved_file env) 1) as [anchor|]; [|done].
  cbn [rbind]. rewrite format_out_dir_eq. cbn [rbind].
  destruct (home_dir env) as [h|]; [|done].
  cbn [rbind]. rewrite format_jar_eq. cbn [rbind]. intros [= <-]. eauto.
Qed.

Lemma split_from_app_sep cur s t :
  split_from cur (s +:+ String "/" t) = split_from cur s ++ split_from EmptyString t.
Proof.
  revert cur. induction s as [|c s IH]; intros cur.
  - rewrite string_app_empty_l. simpl. by destruct cur.
  - rewrite string_app_cons. simpl. destruct (Ascii.eqb c "/").
    + destruct cur; by rewrite IH.
    + apply IH.
Qed.

Lemma components_app_sep s t :
  components (s +:+ String "/" t) = components s ++ components t.
Proof. apply split_from_app_sep. Qed.

Lemma is_absolute_app s t : s ≠ EmptyString → is_absolute (s +:+ t) = is_absolute s.
Proof. by destruct s. Qed.

Lemma resolve_app_sep w s t :
  s ≠ EmptyString →
  resolve w (s +:+ String "/" t) = resolve w s ++ components t.
Proof.
  intros Hs. unfold resolve.
  by rewrite is_absolute_app, components_app_sep, (assoc_L (++)).
Qed.

Lemma resolve_paths_tsv w d :
  d ≠ EmptyString → resolve w (d +:+ "/paths.tsv") = resolve w d ++ ["paths.tsv"].
Proof. intros Hd. by rewrite resolve_app_sep. Qed.


(** ** The calls a run makes, on any platform *)

Section LauncherFacts.
Context {W H : Type} {os : OS W H}.

Lemma emitted_intro {A} (m : M W A) s l :
  trace (snd (m s)) = trace s ++ l → emitted m s = l.
Proof. unfold emitted. intros ->. by rewrite drop_app_length. Qed.

(** [prepare] makes the directory, opens the file, writes the line and
    closes the file, and stops at the first call that raises (the close
    is still made when the write raised). *)
Lemma prepare_cases g s :
  let name := OUT_DIR g +:+ "/paths.tsv" in
  let line := line_text (OUT_DIR g) in
  let mk := EvMakedirs (OUT_DIR g) true in
  (∃ e w1,
      os_makedirs (OUT_DIR g) true (world s) = (Raise e, w1) ∧
      prepare g s =
        (Raise e, {| world := w1; trace := trace s ++ [mk (Some e)] |}))
  ∨ (∃ w1 e w2,
      os_makedirs (OUT_DIR g) true (world s) = (Ok tt, w1) ∧
      os_open_w name w1 = (Raise e, w2) ∧
      prepare g s =
        (Raise e,
         {| world := w2;
            trace := trace s ++ [mk None; EvOpen name (Some e)] |}))
  ∨ (∃ w1 o w2 r3 w3 r4 w4,
      os_makedirs (OUT_DIR g) true (world s) = (Ok tt, w1) ∧
      os_open_w name w1 = (Ok o, w2) ∧
      os_write o line w2 = (r3, w3) ∧
      os_close o w3 = (r4, w4) ∧
      prepare g s =
        (outcome (with_error (raised r3) (raised r4)),
         {| world := w4;
            trace := trace s ++ [mk None; EvOpen name None;
                                 EvWrite line (raised r3);
                                 EvClose (raised r4)] |})).
Proof.
  intros name line mk. unfold prepare.
  rewrite format_paths_tsv_eq, paths_line_eq.
  unfold with_open_w, bind, lift, ret, makedirs, open_w, write, close, log.
  cbn [world trace].
  destruct (os_makedirs (OUT_DIR g) true (world s)) as [[[]|e1] w1] eqn:E1;
    cbn [raised world trace]; [|left; eauto].
  right. fold name.
  destruct (os_open_w name w1) as [[o|e2] w2] eqn:E2; cbn [raised world trace].
  { right. fold line.
    destruct (os_write o line w2) as [r3 w3] eqn:E3.
    exists w1, o, w2, r3, w3.
    destruct r3 as [n|e3]; cbn [raised world trace];
      destruct (os_close o w3) as [[[]|e4] w4] eqn:E4;
      eexists _, w4; cbn [raised with_error outcome];
      rewrite <- !(assoc_L (++)); done. }
  left. exists w1, e2, w2. repeat split; try done.
  by rewrite <- !(assoc_L (++)).
Qed.

(** [run_annotator] goes on to the one call that starts the child only
    when [prepare] returned. *)
Lemma run_annotator_cases g s :
  (∃ e s1, prepare g s = (Raise e, s1) ∧ run_annotator g s = (Raise e, s1))
  ∨ (∃ s1 args r5 w5,
      prepare g s = (Ok tt, s1) ∧
      commands g = Ok args ∧
      os_call args (world s1) = (r5, w5) ∧
      run_annotator g s =
        (outcome (raised r5),
         {| world := w5; trace := trace s1 ++ [EvCall args (raised r5)] |})).
Proof.
  unfold run_annotator. rewrite commands_eq.
  unfold bind, lift, ret, call, log. cbn [world trace].
  destruct (prepare g s) as [[[]|e] s1] eqn:E; [|left; eauto].
  right.
  match goal with
  | |- context [os_call ?args (world s1)] =>
      destruct (os_call args (world s1)) as [r5 w5] eqn:E5
  end.
  eexists s1, _, r5, w5. repeat split; try done.
  by destruct r5.
Qed.

Lemma prepare_ok_trace g s s1 :
  prepare g s = (Ok tt, s1) → trace s1 = trace s ++ prepare_events g.
Proof.
  intros Hp.
  destruct (prepare_cases g s)
    as [(e & w1 & _ & E)|[(w1 & e & w2 & _ & _ & E)
       |(w1 & o & w2 & r3 & w3 & r4 & w4 & _ & _ & _ & _ & E)]];
    rewrite E in Hp; try done.
  destruct r3, r4; simplify_eq/=. done.
Qed.

Lemma run_annotator_shape g s :
  run_shape g (emitted (run_annotator g) s) (fst (run_annotator g s)).
Proof.
  unfold emitted.
  destruct (run_annotator_cases g s)
    as [(e & s1 & Hp & ->)|(s1 & args & r5 & w5 & Hp & Hc & _ & ->)];
    cbn [fst snd trace].
  - destruct (prepare_cases g s)
      as [(e' & w1 & _ & E)|[(w1 & e' & w2 & _ & _ & E)
         |(w1 & o & w2 & r3 & w3 & r4 & w4 & _ & _ & _ & _ & E)]];
      rewrite E in Hp; simplify_eq; cbn [trace];
      rewrite drop_app_length; constructor.
    destruct (with_error (raised r3) (raised r4)); by simplify_eq/=.
  - rewrite (prepare_ok_trace _ _ _ Hp), <- (assoc_L (++)), drop_app_length.
    by constructor.
Qed.

End LauncherFacts.

(** ** The argument list *)

Ltac inv_globals H :=
  let anchor := fresh "anchor" in
  let Hanchor := fresh "Hanchor" in
  apply module_globals_inv in H as (anchor & Hanchor & ->).

(** If a run starts the child at all, it does so once, after the four
    calls of [prepare], with the list that [commands] computes. *)
Lemma call_in_run {W H} {os : OS W H} g (s : state W) args err :
  EvCall args err ∈ emitted (run_annotator g) s →
  commands g = Ok args ∧
  emitted (run_annotator g) s = prepare_events g ++ [EvCall args err] ∧
  fst (run_annotator g s) = outcome err.
Proof.
  intros Hin.
  destruct (run_annotator_shape g s) as [e|e|we ce e _|args' err' Hc].
  - apply list_elem_of_singleton in Hin. done.
  - rewrite !elem_of_cons, elem_of_nil in Hin. by destruct_or!.
  - rewrite !elem_of_cons, elem_of_nil in Hin. by destruct_or!.
  - unfold prepare_events in Hin.
    rewrite elem_of_app, !elem_of_cons, !elem_of_nil in Hin.
    by destruct_or!; simplify_eq.
Qed.

(** A call of [run_annotator] in which [prepare] returns goes on to
    start the child, once, with the list that [commands] computes. *)
Lemma call_after_prepare {W H} {os : OS W H} g (s s1 : state W) args :
  prepare g s = (Ok tt, s1) →
  commands g = Ok args →
  emitted (run_annotator g) s =
    emitted (prepare g) s ++
    [EvCall args (raised (fst (os_call args (world s1))))].
Proof.
  intros Hp Hc.
  destruct (run_annotator_cases g s)
    as [(e & t1 & Hp' & _)|(t1 & args' & r5 & w5 & Hp' & Hc' & E5 & Hr)];
    rewrite Hp in Hp'; simplify_eq.
  rewrite Hc in Hc'. simplify_eq.
  unfold emitted. rewrite Hr, Hp, E5. cbn [fst snd trace].
  rewrite (prepare_ok_trace _ _ _ Hp), <- (assoc_L (++)).
  by rewrite !drop_app_length.
Qed.

(** C1: for the globals of a run, with repository root [R] and archive
    path [A], [commands] builds exactly the list [java -jar A -d
    R/annotator-out -bc "cd R && ./build.sh" -cp R/annotator-out/paths.tsv
    -i edu.Initializer -n com.example.x.ucrtainting.qual.RUntainted -cn
    UCRTaint --depth 25], in this order.  On any platform, a call of
    [run_annotator] in which [prepare] returns starts the child: the one
    call it makes after those of [prepare] is the start of a process with
    exactly this list, in the world that [prepare] left; and no start of a
    process by [run_annotator] has another list.  None of the flags left
    in comments occurs in the list. *)
Theorem run_annotator_argument_list {W H} {os : OS W H} env g :
  module_globals env = Ok g →
  let R := REPO g in
  let A := ANNOTATOR_JAR g in
  let expected :=
    ["java"; "-jar"; A; "-d"; R +:+ "/annotator-out";
     "-bc"; "cd " +:+ R +:+ " && ./build.sh";
     "-cp"; R +:+ "/annotator-out/paths.tsv";
     "-i"; "edu.Initializer";
     "-n"; "com.example.x.ucrtainting.qual.RUntainted";
     "-cn"; "UCRTaint"; "--depth"; "25"] in
  commands g = Ok expected ∧
  (∀ (s s1 : state W),
      prepare g s = (Ok tt, s1) →
      emitted (run_annotator g) s =
        emitted (prepare g) s ++
        [EvCall expected (raised (fst (os_call expected (world s1))))]) ∧
  (∀ (s : state W) args err,
      EvCall args err ∈ emitted (run_annotator g) s → args = expected) ∧
  (∀ flag, flag ∈ disabled_flags → flag ∉ expected).
Proof.
  intros Hg R A expected.
  assert (commands g = Ok expected) as Hc.
  { subst expected R A. inv_globals Hg. rewrite commands_eq.
    cbn [REPO OUT_DIR ANNOTATOR_JAR]. by rewrite string_app_assoc. }
  split; [done|]. split; [|split].
  - intros s s1 Hp. by apply call_after_prepare.
  - intros s args err Hin. apply call_in_run in Hin as (Hc' & _).
    congruence.
  - intros flag Hflag Hin. subst expected R A. inv_globals Hg.
    cbn [REPO OUT_DIR ANNOTATOR_JAR] in Hin.
    destruct (str_path_absolute anchor) as [rest Hrest].
    rewrite Hrest in Hin. unfold disabled_flags in Hflag.
    rewrite !elem_of_cons, elem_of_nil in Hflag.
    rewrite !elem_of_cons, elem_of_nil in Hin.
    destruct_or!; subst; try done;
      match goal with
      | E : _ = _ |- _ => cbv in E; discriminate E
      end.
Qed.

Lemma run_annotator_argument_list_witness :
  module_globals Sample.env = Ok Sample.g ∧
  last (emitted (run_annotator (os := posix (Sample.exits 0)) Sample.g)
          (Sample.start Sample.fresh)) =
    Some (EvCall
            ["java"; "-jar"; "/var/core.jar"; "-d"; "/r/annotator-out";
             "-bc"; "cd /r && ./build.sh"; "-cp"; "/r/annotator-out/paths.tsv";
             "-i"; "edu.Initializer";
             "-n"; "com.example.x.ucrtainting.qual.RUntainted";
             "-cn"; "UCRTaint"; "--depth"; "25"]
            None) ∧
  "-dc" ∉ ["java"; "-jar"; "/var/core.jar"; "-d"; "/r/annotator-out";
           "-bc"; "cd /r && ./build.sh"; "-cp"; "/r/annotator-out/paths.tsv";
           "-i"; "edu.Initializer";
           "-n"; "com.example.x.ucrtainting.qual.RUntainted";
           "-cn"; "UCRTaint"; "--depth"; "25"].
Proof.
  pose proof (@run_annotator_argument_list World path
                (posix (Sample.exits 0)) Sample.env Sample.g eq_refl)
    as (_ & Hcall & _ & Hflags).
  split; [reflexivity|]. split.
  - rewrite (Hcall (Sample.start Sample.fresh)
               (snd (prepare (os := posix (Sample.exits 0)) Sample.g
                       (Sample.start Sample.fresh))))
      by (vm_compute; reflexivity).
    rewrite last_snoc. vm_compute. reflexivity.
  - apply Hflags. unfold disabled_flags. rewrite !elem_of_cons. auto.
Defined.

(** ** Independence from the environment *)




(** ** Where the paths lie *)

Lemma prepare_emitted {W H} {os : OS W H} g (s : state W) :
  (∃ e1, emitted (prepare g) s = [EvMakedirs (OUT_DIR g) true (Some e1)]) ∨
  (∃ e2,
      emitted (prepare g) s =
        [EvMakedirs (OUT_DIR g) true None;
         EvOpen (OUT_DIR g +:+ "/paths.tsv") (Some e2)]) ∨
  (∃ e3 e4,
      emitted (prepare g) s =
        [EvMakedirs (OUT_DIR g) true None;
         EvOpen (OUT_DIR g +:+ "/paths.tsv") None;
         EvWrite (line_text (OUT_DIR g)) e3;
         EvClose e4]).
Proof.
  unfold emitted.
  destruct (prepare_cases g s)
    as [(e & w1 & _ & ->)|[(w1 & e & w2 & _ & _ & ->)
       |(w1 & o & w2 & r3 & w3 & r4 & w4 & _ & _ & _ & _ & ->)]];
    cbn [snd trace]; rewrite drop_app_length; eauto.
Qed.

(** C10: the repository root is the string of the directory two levels
    above the resolved location of the script, and the output directory
    is that string followed by [/annotator-out]; the file that [prepare]
    opens, the two paths on the line it writes, and the values that
    follow [-d] and [-cp] in the argument list are the output directory
    itself or one name below it. *)
Theorem paths_under_output_directory {W H} {os : OS W H} env g :
  module_globals env = Ok g →
  REPO g = str_path (parent (parent (resolved_file env))) ∧
  OUT_DIR g = REPO g +:+ "/annotator-out" ∧
  (∀ (s : state W) name err,
      EvOpen name err ∈ emitted (prepare g) s →
      name = OUT_DIR g +:+ "/paths.tsv") ∧
  (∀ (s : state W) data err,
      EvWrite data err ∈ emitted (prepare g) s →
      data = (OUT_DIR g +:+ "/checker.xml") +:+
             String TAB ((OUT_DIR g +:+ "/scanner.xml") +:+ String NL EmptyString)) ∧
  (∀ args,
      commands g = Ok args →
      args !! 3 = Some "-d" ∧ args !! 4 = Some (OUT_DIR g) ∧
      args !! 7 = Some "-cp" ∧ args !! 8 = Some (OUT_DIR g +:+ "/paths.tsv")) ∧
  (∀ w : World,
      resolve w (OUT_DIR g +:+ "/paths.tsv") = resolve w (OUT_DIR g) ++ ["paths.tsv"] ∧
      resolve w (OUT_DIR g +:+ "/checker.xml") = resolve w (OUT_DIR g) ++ ["checker.xml"] ∧
      resolve w (OUT_DIR g +:+ "/scanner.xml") = resolve w (OUT_DIR g) ++ ["scanner.xml"]).
Proof.
  intros Hg. inv_globals Hg. cbn [REPO OUT_DIR ANNOTATOR_JAR].
  split; [by rewrite (parents_1 _ _ Hanchor)|]. split; [done|].
  set (g := {| REPO := str_path anchor;
               OUT_DIR := str_path anchor +:+ "/annotator-out";
               ANNOTATOR_JAR := "/var/core.jar" |}).
  change (str_path anchor +:+ "/annotator-out") with (OUT_DIR g).
  split.
  { intros s name err Hin.
    destruct (prepare_emitted g s) as [[e1 E]|[[e2 E]|(e3 & e4 & E)]];
      rewrite E in Hin; rewrite !elem_of_cons, elem_of_nil in Hin;
      by destruct_or!; simplify_eq. }
  split.
  { intros s data err Hin.
    destruct (prepare_emitted g s) as [[e1 E]|[[e2 E]|(e3 & e4 & E)]];
      rewrite E in Hin; rewrite !elem_of_cons, elem_of_nil in Hin;
      by destruct_or!; simplify_eq. }
  split.
  { intros args. rewrite commands_eq. by intros [= <-]. }
  intros w. assert (OUT_DIR g ≠ EmptyString) by apply string_app_not_empty.
  by rewrite !resolve_app_sep.
Qed.

Lemma paths_under_output_directory_witness :
  module_globals Sample.env = Ok Sample.g ∧
  REPO Sample.g = str_path ["r"] ∧
  OUT_DIR Sample.g = REPO Sample.g +:+ "/annotator-out".
Proof.
  pose proof (@paths_under_output_directory World path
                (posix (Sample.exits 0)) Sample.env Sample.g eq_refl)
    as (Hrepo & Hout & _).
  split; [reflexivity|]. split; [exact Hrepo|exact Hout].
Defined.

(** ** Failures *)

Lemma launcher_run {W H} {os : OS W H} env g (s : state W) :
  module_globals env = Ok g → launcher env s = run_annotator g s.
Proof. intros Hg. unfold launcher, bind, lift. by rewrite Hg. Qed.

(** C4: on every platform and from every state, when a library call
    made by [run_annotator] raises, be it the making of the directory,
    the opening, writing or closing of the file, or the start of the
    child, then [run_annotator] raises: it raises that very exception,
    except that after a failed write the file is still closed and an
    exception of the close takes its place.  The failed call is the last
    one made, apart from that close; no kind of call is made twice; and
    the script, which calls [run_annotator] at top level, ends with the
    exception and exit status 1. *)
Theorem failures_propagate {W H} {os : OS W H} g (s : state W) ev e :
  ev ∈ emitted (run_annotator g) s →
  event_error ev = Some e →
  let r := fst (run_annotator g s) in
  let calls := emitted (run_annotator g) s in
  (∃ e', r = Raise e') ∧
  exit_status r = 1%Z ∧
  ((last calls = Some ev ∧ r = Raise e) ∨
   (∃ data err pre,
       ev = EvWrite data (Some e) ∧
       calls = pre ++ [ev; EvClose err] ∧
       r = Raise (default e err))) ∧
  NoDup (event_kind <$> calls) ∧
  (∀ env, module_globals env = Ok g → launcher env s = run_annotator g s).
Proof.
  intros Hin He r calls. subst r calls.
  assert (∀ env, module_globals env = Ok g → launcher env s = run_annotator g s)
    as Hl by (intros; by apply launcher_run).
  revert Hl. generalize (launcher (W:=W)). intros l Hl.
  destruct (run_annotator_shape g s) as [e0|e0|we ce e0 Hwe|args err Hc].
  - apply list_elem_of_singleton in Hin as ->. simplify_eq/=.
    split_and!; eauto. by apply (bool_decide_unpack _).
  - rewrite !elem_of_cons, elem_of_nil in Hin.
    destruct_or!; simplify_eq/=.
    split_and!; eauto. by apply (bool_decide_unpack _).
  - rewrite !elem_of_cons, elem_of_nil in Hin.
    destruct_or!; simplify_eq/=.
    + split_and!; eauto.
      * right. exists (line_text (OUT_DIR g)), ce, [EvMakedirs (OUT_DIR g) true None;
                          EvOpen (OUT_DIR g +:+ "/paths.tsv") None].
        split_and!; try done. destruct ce; by simplify_eq/=.
      * by apply (bool_decide_unpack _).
    + split_and!; eauto. by apply (bool_decide_unpack _).
  - unfold prepare_events in *.
    rewrite elem_of_app, !elem_of_cons, !elem_of_nil in Hin.
    destruct_or!; simplify_eq/=.
    split_and!; eauto. by apply (bool_decide_unpack _).
Qed.

Lemma failures_propagate_witness :
  fst (@run_annotator _ _ (posix Sample.missing) Sample.g
         (Sample.start Sample.fresh)) = Raise FileNotFoundError.
Proof.
  pose proof (@failures_propagate World path (posix Sample.missing)
                Sample.g (Sample.start Sample.fresh)
                (EvCall ["java"; "-jar"; "/var/core.jar"; "-d"; "/r/annotator-out";
                         "-bc"; "cd /r && ./build.sh";
                         "-cp"; "/r/annotator-out/paths.tsv";
                         "-i"; "edu.Initializer";
                         "-n"; "com.example.x.ucrtainting.qual.RUntainted";
                         "-cn"; "UCRTaint"; "--depth"; "25"]
                        (Some FileNotFoundError))
                FileNotFoundError) as Hw.
  cbv zeta in Hw.
  destruct Hw as (_ & _ & [[_ Hr]|(? & ? & ? & [=] & _)] & _).
  - apply list_elem_of_In. vm_compute. do 4 right. left. reflexivity.
  - reflexivity.
  - exact Hr.
Defined.

(** ** The exit code of the child *)

(** C5: [run_annotator] returns nothing but [None], written [tt]: when
    the child was started and exited, with whatever code, the result is
    [Ok tt]; and on two platforms that differ only in the exit codes of
    the child (they agree on whether it could be started and on the world
    it leaves), [run_annotator] makes the same calls, returns the same
    and leaves the same state, so that the script ends with the same exit
    status. *)
Theorem exit_code_not_observed {W H : Type} (os : OS W H)
    (call' : list string → W → result Z * W) g (s : state W) :
  (∀ args w,
      raised (fst (call' args w)) = raised (fst (os_call args w)) ∧
      snd (call' args w) = snd (os_call args w)) →
  (∀ s1 args code w,
      prepare g s = (Ok tt, s1) →
      commands g = Ok args →
      os_call args (world s1) = (Ok code, w) →
      fst (run_annotator g s) = Ok tt) ∧
  @run_annotator W H (with_call os call') g s = @run_annotator W H os g s ∧
  (∀ env,
      exit_status (fst (@launcher W H (with_call os call') env s)) =
      exit_status (fst (@launcher W H os env s))).
Proof.
  intros Hcall.
  assert (@run_annotator W H (with_call os call') g s
          = @run_annotator W H os g s) as Hrun.
  { destruct (@run_annotator_cases W H (with_call os call') g s)
      as [(e & s1 & Hp & ->)|(s1 & args & r5 & w5 & Hp & Hc & E5 & ->)];
      destruct (@run_annotator_cases W H os g s)
        as [(e' & s1' & Hp' & ->)|(s1' & args' & r5' & w5' & Hp' & Hc' & E5' & ->)];
      change (@prepare W H (with_call os call') g s) with (@prepare W H os g s) in Hp;
      rewrite Hp in Hp'; simplify_eq; [done|].
    rewrite Hc in Hc'. simplify_eq.
    cbn [os_call with_call] in E5.
    match goal with
    | E : call' ?a ?w = _ |- _ => destruct (Hcall a w) as [Hr Hw]
    end.
    rewrite E5, E5' in Hr, Hw. cbn [fst snd] in Hr, Hw.
    by rewrite Hr, Hw. }
  split_and!; [|done|].
  - intros s1 args code w Hp Hc E5.
    destruct (@run_annotator_cases W H os g s)
      as [(e' & s1' & Hp' & ->)|(s1' & args' & r5' & w5' & Hp' & Hc' & E5' & ->)];
      rewrite Hp in Hp'; simplify_eq.
    rewrite Hc in Hc'. simplify_eq. rewrite E5 in E5'. by simplify_eq.
  - intros env. unfold launcher, bind, lift.
    destruct (module_globals env) as [g'|]; [|done].
    clear Hrun.
    destruct (@run_annotator_cases W H (with_call os call') g' s)
      as [(e & s1 & Hp & ->)|(s1 & args & r5 & w5 & Hp & Hc & E5 & ->)];
      destruct (@run_annotator_cases W H os g' s)
        as [(e' & s1' & Hp' & ->)|(s1' & args' & r5' & w5' & Hp' & Hc' & E5' & ->)];
      change (@prepare W H (with_call os call') g' s) with (@prepare W H os g' s) in Hp;
      rewrite Hp in Hp'; simplify_eq; [done|].
    rewrite Hc in Hc'. simplify_eq.
    cbn [os_call with_call] in E5.
    match goal with
    | E : call' ?a ?w = _ |- _ => destruct (Hcall a w) as [Hr _]
    end.
    rewrite E5, E5' in Hr. cbn [fst] in Hr.
    cbn [fst]. by rewrite Hr.
Qed.

Lemma exit_code_not_observed_witness :
  @run_annotator _ _ (with_call (posix (Sample.exits 0))
                        (posix_call (Sample.exits 3)))
     Sample.g (Sample.start Sample.fresh) =
  @run_annotator _ _ (posix (Sample.exits 0))
     Sample.g (Sample.start Sample.fresh).
Proof.
  refine (proj1 (proj2 (exit_code_not_observed (posix (Sample.exits 0))
            (posix_call (Sample.exits 3)) Sample.g
            (Sample.start Sample.fresh) _))).
  intros args w. split; reflexivity.
Defined.

(** ** The file-system model *)

Lemma sys_mkdir_ok refuse p fs fs' :
  sys_mkdir refuse p fs = (Ok tt, fs') →
  fs !! p = None ∧ fs !! parent p = Some (Dir true) ∧ refuse p = false ∧
  fs' = <[p := Dir true]> fs.
Proof.
  unfold sys_mkdir. destruct (fs !! p); [done|].
  destruct (fs !! parent p) as [[[]|]|]; try done.
  destruct (refuse p); intros; by simplify_eq.
Qed.

Lemma sys_mkdir_raise refuse p fs e fs' :
  sys_mkdir refuse p fs = (Raise e, fs') →
  fs' = fs ∧
  ((is_Some (fs !! p) ∧ e = FileExistsError) ∨
   (fs !! p = None ∧
    ((fs !! parent p = None ∧ e = FileNotFoundError) ∨
     ((∃ wr d, fs !! parent p = Some (File wr d)) ∧ e = NotADirectoryError) ∨
     (fs !! parent p = Some (Dir false) ∧ e = PermissionError) ∨
     (fs !! parent p = Some (Dir true) ∧ refuse p = true ∧ e = OSError)))).
Proof.
  unfold sys_mkdir. destruct (fs !! p) as [n|] eqn:Ep.
  { intros [= <- <-]. eauto. }
  destruct (fs !! parent p) as [[[]|wr d]|]; try destruct (refuse p) eqn:Er;
    intros; simplify_eq; eauto 10.
Qed.

Lemma isdir_true fs p : isdir fs p = true ↔ ∃ wr, fs !! p = Some (Dir wr).
Proof.
  unfold isdir.
  destruct (fs !! p) as [[wr|wr d]|]; split; eauto; try done; by intros [? ?].
Qed.

Lemma exists_path_true fs p : exists_path fs p = true ↔ is_Some (fs !! p).
Proof.
  unfold exists_path. destruct (fs !! p); split; eauto; try done.
Qed.

Lemma makedirs_rev_cons refuse exist_ok c rhead fs :
  makedirs_rev refuse exist_ok (c :: rhead) fs =
  let '(r, fs1) :=
    if exists_path fs (reverse rhead) then (Ok tt, fs)
    else
      match makedirs_rev refuse exist_ok rhead fs with
      | (Raise FileExistsError, fs') => (Ok tt, fs')
      | other => other
      end in
  match r with
  | Raise e => (Raise e, fs1)
  | Ok _ =>
      match sys_mkdir refuse (reverse (c :: rhead)) fs1 with
      | (Raise e, fs2) =>
          if negb exist_ok || negb (isdir fs2 (reverse (c :: rhead)))
          then (Raise e, fs2) else (Ok tt, fs2)
      | ok => ok
      end
  end.
Proof. reflexivity. Qed.

(** The last step of [makedirs]: the parent is there, the directory
    itself is made, and a failure is forgiven if it is a directory. *)
Lemma makedirs_last_step refuse (name : path) fs fs1 r fs' :
  (∀ q, fs1 !! q = fs !! q ∨
        (fs !! q = None ∧ fs1 !! q = Some (Dir true) ∧ q `prefix_of` parent name)) →
  (isdir fs1 name = true ∨ is_Some (fs !! []) → is_Some (fs1 !! parent name)) →
  (name = [] ∨ ∃ c, name = parent name ++ [c]) →
  match sys_mkdir refuse name fs1 with
  | (Raise e, fs2) =>
      if negb true || negb (isdir fs2 name) then (Raise e, fs2) else (Ok tt, fs2)
  | ok => ok
  end = (r, fs') →
  makedirs_post refuse name fs r fs'.
Proof.
  intros Hgrown Hparent Hname Hstep.
  assert (parent name `prefix_of` name) as Hpre.
  { destruct Hname as [->|[c Hc]]; [done|]. rewrite Hc at 2. by exists [c]. }
  assert (∀ q, fs1 !! q = fs !! q ∨
               (fs !! q = None ∧ fs1 !! q = Some (Dir true) ∧ q `prefix_of` name))
    as Hgrown'.
  { intros q. destruct (Hgrown q) as [?|(? & ? & ?)]; [by left|right].
    split_and!; try done. by etrans. }
  assert (∀ q, fs1 !! q = None → fs !! q = None) as Hnone.
  { intros q Hq. destruct (Hgrown' q) as [E|(E & _)]; congruence. }
  assert (∀ q n, fs1 !! q = Some n → n ≠ Dir true → fs !! q = Some n) as Hold.
  { intros q n Hq Hn. destruct (Hgrown' q) as [E|(_ & E & _)]; congruence. }
  destruct (sys_mkdir refuse name fs1) as [[[]|e] fs2] eqn:Emk.
  - apply sys_mkdir_ok in Emk as (Hnew & Hpar & _ & ->). simplify_eq.
    split.
    + intros q. destruct (decide (q = name)) as [->|Hne].
      * right. rewrite lookup_insert_eq. split_and!; try done. by apply Hnone.
      * rewrite lookup_insert_ne by done. apply Hgrown'.
    + intros _. split.
      * apply isdir_true. exists true. by rewrite lookup_insert_eq.
      * rewrite lookup_insert_ne; [done|]. intros E. rewrite <- E in Hpar.
        congruence.
    + done.
    + done.
  - apply sys_mkdir_raise in Emk as (-> & Hcause). cbn [negb orb] in Hstep.
    destruct (isdir fs1 name) eqn:Edir; cbn [negb] in Hstep; simplify_eq.
    { split; try done. intros _. split; [done|]. apply Hparent. by left. }
    assert (∀ n, fs' !! name = Some n → ∃ wr d, fs !! name = Some (File wr d))
      as Hfile.
    { intros [wr|wr d] Hn.
      - assert (isdir fs' name = true) by (apply isdir_true; eauto). congruence.
      - exists wr, d. by apply Hold. }
    split; try done.
    + intros [= ->]. destruct Hcause as [[[n Hn] _]|(_ & Hc)]; [by eapply Hfile|].
      by destruct Hc as [[_ ?]|[[_ ?]|[[_ ?]|(_ & _ & ?)]]].
    + intros e' [= <-] Hroot.
      assert (is_Some (fs' !! parent name)) as Hparent' by (apply Hparent; by right).
      destruct Hcause
        as [[[n Hn] ->]|(Hnew & [[Hp ->]|[[(wr & d & Hp) ->]|[[Hp ->]|(Hp & Hr & ->)]]])].
      * right. left. split; [done|]. by eapply Hfile.
      * rewrite Hp in Hparent'. by destruct Hparent'.
      * destruct Hname as [->|[c Hc]]; [rewrite parent_nil in Hp; congruence|].
        right. right. left. split; [done|]. exists (parent name), c, wr, d.
        split; [by rewrite <- Hc|]. by apply Hold.
      * destruct Hname as [->|[c Hc]]; [rewrite parent_nil in Hp; congruence|].
        left. split; [done|]. exists (parent name), c. rewrite <- Hc.
        split_and!; [done|by apply Hnone|by apply Hold].
      * right. right. right. split; [done|]. exists name.
        split_and!; [done|by apply Hnone|done].
Qed.

Lemma makedirs_rev_post refuse rname fs r fs' :
  makedirs_rev refuse true rname fs = (r, fs') →
  makedirs_post refuse (reverse rname) fs r fs'.
Proof.
  revert fs r fs'. induction rname as [|c rhead IH]; intros fs r fs' Hmk.
  - apply (makedirs_last_step refuse [] fs fs); try done.
    + by left.
    + rewrite parent_nil. intros [Hd|Hr]; [|done].
      apply isdir_true in Hd as [wr ->]. eauto.
    + by left.
  - rewrite makedirs_rev_cons in Hmk. rewrite reverse_cons in *.
    assert (reverse rhead ++ [c] = [] ∨
            ∃ c', reverse rhead ++ [c] = parent (reverse rhead ++ [c]) ++ [c'])
      as Hname by (right; exists c; by rewrite parent_snoc).
    assert (parent (reverse rhead ++ [c]) `prefix_of` reverse rhead ++ [c])
      as Hpre by (rewrite parent_snoc; by exists [c]).
    destruct (exists_path fs (reverse rhead)) eqn:Eex.
    { apply (makedirs_last_step refuse _ fs fs); try done.
      - by left.
      - intros _. rewrite parent_snoc. by apply exists_path_true. }
    destruct (makedirs_rev refuse true rhead fs) as [r0 fs0] eqn:Erec.
    specialize (IH _ _ _ Erec). destruct IH as [Hgrown Hok Hex Hfail].
    destruct r0 as [[]|e].
    { apply (makedirs_last_step refuse _ fs fs0); try done.
      - by rewrite parent_snoc.
      - intros _. rewrite parent_snoc. destruct Hok as [Hd _]; [done|].
        apply isdir_true in Hd as [wr ->]. eauto. }
    assert (e ≠ FileExistsError) as Hne.
    { intros ->. destruct Hex as (wr & d & Hfile); [done|].
      assert (exists_path fs (reverse rhead) = true)
        by (apply exists_path_true; eauto).
      congruence. }
    assert ((r, fs') = (Raise e, fs0)) as [= -> ->] by (by destruct e).
    rewrite parent_snoc in Hpre.
    split.
    + intros q. destruct (Hgrown q) as [?|(? & ? & ?)]; [by left|right].
      split_and!; try done. by etrans.
    + done.
    + by intros [= ->].
    + intros e' [= <-] Hroot.
      destruct (Hfail e eq_refl Hroot)
        as [(-> & q & c' & Hq & ? & ?)|[(-> & _)|[(-> & q & c' & wr & d & Hq & ?)
           |(-> & q & Hq & ? & ?)]]]; [|done| |].
      * left. split; [done|]. exists q, c'. split_and!; [by etrans|done..].
      * right. right. left. split; [done|]. exists q, c', wr, d.
        split; [by etrans|done].
      * right. right. right. split; [done|]. exists q.
        split_and!; [by etrans|done..].
Qed.

(** Making a directory that is there, in a tree where its parent is
    there too, changes nothing. *)
Lemma makedirs_rev_present refuse rname fs :
  isdir fs (reverse rname) = true →
  is_Some (fs !! parent (reverse rname)) →
  makedirs_rev refuse true rname fs = (Ok tt, fs).
Proof.
  intros Hd Hp. destruct rname as [|c rhead].
  - cbn. unfold sys_mkdir. apply isdir_true in Hd as Hd'.
    destruct Hd' as [wr Hroot]. cbn in Hroot. rewrite Hroot.
    cbn in Hd. by rewrite Hd.
  - rewrite makedirs_rev_cons. rewrite reverse_cons in *.
    rewrite parent_snoc in Hp.
    apply exists_path_true in Hp. rewrite Hp.
    unfold sys_mkdir. apply isdir_true in Hd as Hd'.
    destruct Hd' as [wr ->]. cbn [negb orb]. by rewrite Hd.
Qed.

Lemma sys_open_w_cases refuse p fs r fs' :
  sys_open_w refuse p fs = (r, fs') →
  (∃ e, r = Raise e ∧ fs' = fs) ∨
  (r = Ok p ∧ fs' = <[p := File true EmptyString]> fs).
Proof.
  unfold sys_open_w.
  destruct (fs !! p) as [[wr|[] d]|];
    [| | |destruct (fs !! parent p) as [[[]|wr d]|]];
    try destruct (refuse p); intros; simplify_eq; eauto.
Qed.

Lemma sys_write_fresh p data fs :
  sys_write p data (<[p := File true EmptyString]> fs) =
  (Ok (String.length data), <[p := File true data]> fs).
Proof.
  unfold sys_write. rewrite lookup_insert_eq.
  by rewrite insert_insert_eq, string_app_empty_l.
Qed.

(** [prepare] on the file-system model: the directory is made; then the
    file is created or truncated; then, if the line could be encoded and
    flushed, the file holds it, and else the file is left empty.  The
    file object is closed in the end. *)
Lemma posix_prepare_world child g (s : state World) :
  OUT_DIR g ≠ EmptyString →
  let w := world s in
  let p := resolve w (OUT_DIR g) ++ ["paths.tsv"] in
  let after := prepare (os := posix child) g s in
  let closed fs := set_pending (set_files w fs) (delete p (pending w)) in
  ∃ r1 fs1,
    makedirs_rev (refuses_mkdir (device w)) true
      (reverse (resolve w (OUT_DIR g))) (files w) = (r1, fs1) ∧
    ((∃ e, r1 = Raise e ∧ fst after = Raise e ∧
           world (snd after) = set_files w fs1) ∨
     (r1 = Ok tt ∧
      ∃ e, sys_open_w (refuses_open (device w)) p fs1 = (Raise e, fs1) ∧
           fst after = Raise e ∧
           world (snd after) = set_files w fs1) ∨
     (r1 = Ok tt ∧
      sys_open_w (refuses_open (device w)) p fs1
        = (Ok p, <[p := File true EmptyString]> fs1) ∧
      if encodable (device w) (line_text (OUT_DIR g)) &&
         negb (refuses_flush (device w) p (line_text (OUT_DIR g)))
      then
        fst after = Ok tt ∧
        world (snd after) =
          closed (<[p := File true (line_text (OUT_DIR g))]> fs1)
      else
        fst after =
          Raise (if encodable (device w) (line_text (OUT_DIR g)) then OSError
                 else if refuses_flush (device w) p EmptyString then OSError
                 else UnicodeEncodeError) ∧
        world (snd after) = closed (<[p := File true EmptyString]> fs1))).
Proof.
  intros Hout w p after closed. subst after.
  assert (OUT_DIR g +:+ "/paths.tsv" ≠ EmptyString) as Hname
    by apply string_app_not_empty.
  destruct (prepare_cases (os := posix child) g s)
    as [(e & w1 & E1 & ->)|[(w1 & e & w2 & E1 & E2 & ->)
       |(w1 & o & w2 & r3 & w3 & r4 & w4 & E1 & E2 & E3 & E4 & ->)]];
    cbn [fst snd world];
    cbn [os_makedirs os_open_w os_write os_close posix] in *;
    unfold posix_makedirs in E1; rewrite decide_False in E1 by done;
    fold w in E1;
    destruct (makedirs_rev (refuses_mkdir (device w)) true
                (reverse (resolve w (OUT_DIR g))) (files w))
      as [r1 fs1] eqn:Emk;
    exists r1, fs1; (split; [done|]); simplify_eq.
  - left. eauto.
  - right. left. split; [done|].
    unfold posix_open_w in E2. rewrite decide_False in E2 by done.
    rewrite resolve_paths_tsv in E2 by done. cbn [files set_files device] in E2.
    change (resolve (set_files w fs1) (OUT_DIR g) ++ ["paths.tsv"]) with p in E2.
    destruct (sys_open_w (refuses_open (device w)) p fs1) as [r2 fs2] eqn:Eop.
    pose proof (sys_open_w_cases _ _ _ _ _ Eop) as [(e' & Hr & Hfs)|[Hr Hfs]];
      simplify_eq.
    eauto.
  - right. right. split; [done|].
    unfold posix_open_w in E2. rewrite decide_False in E2 by done.
    rewrite resolve_paths_tsv in E2 by done. cbn [files set_files device] in E2.
    change (resolve (set_files w fs1) (OUT_DIR g) ++ ["paths.tsv"]) with p in E2.
    destruct (sys_open_w (refuses_open (device w)) p fs1) as [r2 fs2] eqn:Eop.
    pose proof (sys_open_w_cases _ _ _ _ _ Eop) as [(e' & Hr & Hfs)|[Hr Hfs]];
      simplify_eq.
    split; [done|].
    unfold posix_write in E3. cbn [pending set_pending set_files device] in E3.
    rewrite lookup_insert_eq in E3.
    unfold posix_close in E4.
    destruct (encodable (device w) (line_text (OUT_DIR g))); simplify_eq;
      cbn [pending set_pending set_files device files] in E4;
      rewrite lookup_insert_eq in E4;
      rewrite ?insert_insert_eq, delete_insert_eq, ?string_app_empty_l in E4;
      match type of E4 with
      | context [refuses_flush ?d ?q ?t] => destruct (refuses_flush d q t)
      end;
      rewrite ?sys_write_fresh in E4; simplify_eq;
      cbn [raised with_error outcome andb negb]; eauto.
Qed.


Lemma globals_out_dir_not_empty env g :
  module_globals env = Ok g → OUT_DIR g ≠ EmptyString.
Proof. intros Hg. inv_globals Hg. apply string_app_not_empty. Qed.

Lemma snoc_not_prefix (p : path) c : ¬ (p ++ [c]) `prefix_of` p.
Proof.
  intros Hpre%prefix_length. rewrite length_app in Hpre. simpl in Hpre. lia.
Qed.

Lemma snoc_ne (p : path) c : p ≠ p ++ [c].
Proof.
  intros E. apply (f_equal length) in E. rewrite length_app in E.
  simpl in E. lia.
Qed.


Lemma set_files_id w : set_files w (files w) = w.
Proof. by destruct w. Qed.

(** ** The file that [prepare] leaves *)

(** After a [prepare] that returned: what [os.makedirs] did, and the file
    put on top of it. *)
Lemma posix_prepare_ok child g (s s' : state World) :
  OUT_DIR g ≠ EmptyString →
  prepare (os := posix child) g s = (Ok tt, s') →
  let out := resolve (world s) (OUT_DIR g) in
  ∃ fs1,
    makedirs_post (refuses_mkdir (device (world s))) out
      (files (world s)) (Ok tt) fs1 ∧
    world s' =
      set_pending
        (set_files (world s)
           (<[out ++ ["paths.tsv"] := File true (line_text (OUT_DIR g))]> fs1))
        (delete (out ++ ["paths.tsv"]) (pending (world s))).
Proof.
  intros Hout Hp out.
  destruct (posix_prepare_world child g s Hout) as (r1 & fs1 & Emk & Hcases).
  rewrite Hp in Hcases. cbn [fst snd] in Hcases. fold out in Emk, Hcases.
  destruct Hcases
    as [(e & _ & [=] & _)|[(_ & e & _ & [=] & _)|(-> & _ & Hend)]].
  destruct (encodable _ _ && negb (refuses_flush _ _ _));
    [|by destruct Hend as [[=] _]].
  destruct Hend as [_ ->].
  apply makedirs_rev_post in Emk. rewrite reverse_involutive in Emk.
  by exists fs1.
Qed.

Lemma posix_prepare_ok_file child g (s s' : state World) :
  OUT_DIR g ≠ EmptyString →
  prepare (os := posix child) g s = (Ok tt, s') →
  isdir (files (world s')) (resolve (world s) (OUT_DIR g)) = true ∧
  files (world s') !! (resolve (world s) (OUT_DIR g) ++ ["paths.tsv"]) =
    Some (File true (line_text (OUT_DIR g))).
Proof.
  intros Hout Hp.
  destruct (posix_prepare_ok child g s s' Hout Hp) as (fs1 & Hpost & ->).
  destruct Hpost as [_ Hok _ _]. destruct Hok as [Hdir _]; [done|].
  cbn [files set_files set_pending]. split.
  - apply isdir_true in Hdir as [wr Hdir]. apply isdir_true. exists wr.
    rewrite lookup_insert_ne; [done|]. intros E. symmetry in E.
    by apply snoc_ne in E.
  - by rewrite lookup_insert_eq.
Qed.

(** C2, as the code has it: when [prepare] returns, the output directory
    is a directory and holds [paths.tsv], a file whose content is exactly
    the line [<out>/checker.xml TAB <out>/scanner.xml NEWLINE]; and when
    the directory held no other entry before the call, [paths.tsv] is its
    only entry afterwards. *)
Theorem prepare_writes_paths_tsv child env g (s s' : state World) :
  module_globals env = Ok g →
  prepare (os := posix child) g s = (Ok tt, s') →
  let out := resolve (world s) (OUT_DIR g) in
  isdir (files (world s')) out = true ∧
  files (world s') !! (out ++ ["paths.tsv"]) =
    Some (File true
            ((OUT_DIR g +:+ "/checker.xml") +:+
             String TAB ((OUT_DIR g +:+ "/scanner.xml") +:+ String NL EmptyString))) ∧
  ((∀ name, is_Some (files (world s) !! (out ++ [name])) → name = "paths.tsv") →
   (∀ name, is_Some (files (world s') !! (out ++ [name])) → name = "paths.tsv")).
Proof.
  intros Hg Hp out.
  pose proof (globals_out_dir_not_empty _ _ Hg) as Hout.
  destruct (posix_prepare_ok_file child g s s' Hout Hp) as [Hdir Hline].
  split_and!; try done.
  destruct (posix_prepare_ok child g s s' Hout Hp) as (fs1 & Hpost & ->).
  destruct Hpost as [Hgrown _ _ _]. cbn [files set_files set_pending].
  intros Hbefore name Hname. fold out in Hname.
  destruct (decide (name = "paths.tsv")) as [|Hne]; [done|].
  rewrite lookup_insert_ne in Hname by (intros E; by simplify_list_eq).
  destruct (Hgrown (out ++ [name])) as [E|(_ & _ & Hpre)].
  - rewrite E in Hname. by apply Hbefore.
  - by apply snoc_not_prefix in Hpre.
Qed.

Lemma prepare_writes_paths_tsv_witness :
  files (world (snd (prepare (os := posix (Sample.exits 0)) Sample.g
                       (Sample.start Sample.fresh))))
    !! ["r"; "annotator-out"; "paths.tsv"] =
  Some (File true
          (("/r/annotator-out" +:+ "/checker.xml") +:+
           String TAB (("/r/annotator-out" +:+ "/scanner.xml") +:+
                       String NL EmptyString))).
Proof.
  refine (proj1 (proj2 (prepare_writes_paths_tsv (Sample.exits 0) Sample.env
            Sample.g (Sample.start Sample.fresh) _ eq_refl _))).
  vm_compute. reflexivity.
Defined.

(** C2 as stated fails: in a checkout whose output directory holds a log
    of an earlier run, [prepare] returns and the directory holds that log
    next to [paths.tsv]. *)
Lemma prepare_one_file_counterexample :
  let s' := snd (prepare (os := posix (Sample.exits 0)) Sample.g
                   (Sample.start Sample.used)) in
  module_globals Sample.env = Ok Sample.g ∧
  fst (prepare (os := posix (Sample.exits 0)) Sample.g
         (Sample.start Sample.used)) = Ok tt ∧
  files (world s') !! ["r"; "annotator-out"; "log.txt"] =
    Some (File true "old log") ∧
  ¬ (∀ name,
       is_Some (files (world s')
                  !! (resolve Sample.used (OUT_DIR Sample.g) ++ [name])) →
       name = "paths.tsv").
Proof.
  assert (files (world (snd (prepare (os := posix (Sample.exits 0)) Sample.g
                               (Sample.start Sample.used))))
            !! ["r"; "annotator-out"; "log.txt"] = Some (File true "old log"))
    as Hlog by (vm_compute; reflexivity).
  cbv zeta. split_and!.
  - reflexivity.
  - vm_compute. reflexivity.
  - exact Hlog.
  - intros Hall. specialize (Hall "log.txt").
    change (resolve Sample.used (OUT_DIR Sample.g) ++ ["log.txt"])
      with ["r"; "annotator-out"; "log.txt"] in Hall.
    rewrite Hlog in Hall. by specialize (Hall (mk_is_Some _ _ eq_refl)).
Qed.

(** ** Calling [prepare] again *)



(** ** What [prepare] leaves alone *)

(** The file tree after [prepare], however it ended: the tree that
    [os.makedirs] left, with or without a new [paths.tsv]. *)
Lemma posix_prepare_files child g (s : state World) :
  OUT_DIR g ≠ EmptyString →
  let w := world s in
  let p := resolve w (OUT_DIR g) ++ ["paths.tsv"] in
  let after := prepare (os := posix child) g s in
  ∃ r1 fs1,
    makedirs_rev (refuses_mkdir (device w)) true
      (reverse (resolve w (OUT_DIR g))) (files w) = (r1, fs1) ∧
    (files (world (snd after)) = fs1 ∨
     ∃ d, files (world (snd after)) = <[p := File true d]> fs1).
Proof.
  intros Hout w p after.
  destruct (posix_prepare_world child g s Hout) as (r1 & fs1 & Emk & Hcases).
  fold w p after in Emk, Hcases. exists r1, fs1. split; [done|].
  destruct Hcases as [(e & _ & _ & ->)|[(_ & e & _ & _ & ->)|(_ & _ & Hend)]];
    [by left..|].
  destruct (encodable _ _ && negb (refuses_flush _ _ _));
    destruct Hend as [_ ->]; right; eauto.
Qed.

(** C8: whatever [prepare] does and however it ends, every entry of the
    file tree other than [paths.tsv] is afterwards what it was before, in
    particular the other files of an output directory that was already
    there; and every file found afterwards is [paths.tsv] or a file that
    was there before, unchanged. *)
Theorem prepare_frame child env g (s : state World) q n :
  module_globals env = Ok g →
  files (world s) !! q = Some n →
  q ≠ resolve (world s) (OUT_DIR g) ++ ["paths.tsv"] →
  let s' := snd (prepare (os := posix child) g s) in
  files (world s') !! q = Some n ∧
  (∀ q' wr d,
      files (world s') !! q' = Some (File wr d) →
      q' = resolve (world s) (OUT_DIR g) ++ ["paths.tsv"] ∨
      files (world s) !! q' = Some (File wr d)).
Proof.
  intros Hg Hq Hne s'. subst s'.
  pose proof (globals_out_dir_not_empty _ _ Hg) as Hout.
  destruct (posix_prepare_files child g s Hout) as (r1 & fs1 & Emk & Hcases).
  apply makedirs_rev_post in Emk. rewrite reverse_involutive in Emk.
  destruct Emk as [Hgrown _ _ _].
  assert (fs1 !! q = Some n) as Hq1.
  { destruct (Hgrown q) as [E|(E & _)]; congruence. }
  assert (∀ q' wr d, fs1 !! q' = Some (File wr d) →
                     files (world s) !! q' = Some (File wr d)) as Hfiles.
  { intros q' wr d Hq'. destruct (Hgrown q') as [E|(_ & E & _)]; congruence. }
  destruct Hcases as [->|[d0 ->]]; (split; [|intros q' wr d Hq']); eauto.
  - by rewrite lookup_insert_ne.
  - destruct (decide (q' = resolve (world s) (OUT_DIR g) ++ ["paths.tsv"]))
      as [|Hne']; [by left|right].
    rewrite lookup_insert_ne in Hq' by done. eauto.
Qed.

Lemma prepare_frame_witness :
  files (world (snd (prepare (os := posix (Sample.exits 0)) Sample.g
                       (Sample.start Sample.used))))
    !! ["r"; "annotator-out"; "log.txt"] = Some (File true "old log").
Proof.
  refine (proj1 (prepare_frame (Sample.exits 0) Sample.env Sample.g
            (Sample.start Sample.used) ["r"; "annotator-out"; "log.txt"]
            (File true "old log") _ _ _)).
  - reflexivity.
  - vm_compute. reflexivity.
  - vm_compute. discriminate.
Defined.

(** ** Making the output directory *)

Lemma tree_shaped_parent fs p :
  tree_shaped fs → is_Some (fs !! p) → is_Some (fs !! parent p).
Proof.
  intros [_ Hall] [n Hn]. specialize (Hall p n Hn).
  apply isdir_true in Hall as [wr ->]. eauto.
Qed.

Lemma prefix_snoc_inj (q l : path) c c' :
  (q ++ [c]) `prefix_of` l → (q ++ [c']) `prefix_of` l → c = c'.
Proof.
  intros [k ->] [k' E]. rewrite <- !(assoc_L (++)) in E.
  apply app_inv_head in E. by simplify_eq/=.
Qed.

Lemma prefix_snoc_l (q l : path) c : (q ++ [c]) `prefix_of` l → q `prefix_of` l.
Proof. intros Hpre. etrans; [|done]. by exists [c]. Qed.

(** C9, as the code has it: in a file tree, when the output directory is
    already there as a directory, the [os.makedirs] call of [prepare]
    returns and changes nothing.  When it raises, the exception names the
    cause: [PermissionError], the directory that lacks the next component
    of the path being closed to the process; [FileExistsError], a file
    being in the place of the output directory; [NotADirectoryError], a
    file being above it; or plain [OSError], the device refusing to make
    a missing directory that the tree allows.  When nothing of this
    stands in the way the call returns.  It is the first call [prepare]
    makes. *)
Theorem makedirs_existing_or_blocked child env g (w : World) :
  module_globals env = Ok g →
  tree_shaped (files w) →
  let out := resolve w (OUT_DIR g) in
  let creation := @os_makedirs World path (posix child) (OUT_DIR g) true w in
  (isdir (files w) out = true → creation = (Ok tt, w)) ∧
  (∀ e, fst creation = Raise e →
     (e = PermissionError ∧
        ∃ q c, (q ++ [c]) `prefix_of` out ∧
               files w !! (q ++ [c]) = None ∧ files w !! q = Some (Dir false)) ∨
     (e = FileExistsError ∧ ∃ wr d, files w !! out = Some (File wr d)) ∨
     (e = NotADirectoryError ∧
        ∃ q c wr d, (q ++ [c]) `prefix_of` out ∧
                    files w !! q = Some (File wr d)) ∨
     (e = OSError ∧
        ∃ q, q `prefix_of` out ∧ files w !! q = None ∧
             refuses_mkdir (device w) q = true)) ∧
  (passable (refuses_mkdir (device w)) (files w) out → fst creation = Ok tt) ∧
  (∀ s : state World,
     world s = w →
     ∃ rest,
       emitted (prepare (os := posix child) g) s =
       EvMakedirs (OUT_DIR g) true (raised (fst creation)) :: rest).
Proof.
  intros Hg Htree out creation.
  pose proof (globals_out_dir_not_empty _ _ Hg) as Hout.
  assert (creation =
          let '(r, fs) :=
            makedirs_rev (refuses_mkdir (device w)) true (reverse out) (files w) in
          (r, set_files w fs)) as Hcreation.
  { subst creation. cbn [os_makedirs posix]. unfold posix_makedirs.
    by rewrite decide_False by done. }
  assert (∀ e, fst creation = Raise e →
     (e = PermissionError ∧
        ∃ q c, (q ++ [c]) `prefix_of` out ∧
               files w !! (q ++ [c]) = None ∧ files w !! q = Some (Dir false)) ∨
     (e = FileExistsError ∧ ∃ wr d, files w !! out = Some (File wr d)) ∨
     (e = NotADirectoryError ∧
        ∃ q c wr d, (q ++ [c]) `prefix_of` out ∧
                    files w !! q = Some (File wr d)) ∨
     (e = OSError ∧
        ∃ q, q `prefix_of` out ∧ files w !! q = None ∧
             refuses_mkdir (device w) q = true)) as Hcauses.
  { intros e He. rewrite Hcreation in He.
    destruct (makedirs_rev (refuses_mkdir (device w)) true (reverse out) (files w))
      as [r fs'] eqn:Emk.
    cbn [fst] in He. subst r.
    apply makedirs_rev_post in Emk. rewrite reverse_involutive in Emk.
    destruct Emk as [_ _ _ Hfail]. apply Hfail; [done|].
    destruct Htree as [Hroot _]. apply isdir_true in Hroot as [wr ->]. eauto. }
  split_and!; [|done| |].
  - intros Hdir. rewrite Hcreation, makedirs_rev_present.
    + by rewrite set_files_id.
    + by rewrite reverse_involutive.
    + rewrite reverse_involutive. apply tree_shaped_parent; [done|].
      apply isdir_true in Hdir as [wr ->]. eauto.
  - intros Hpass. destruct (fst creation) as [[]|e] eqn:Eres; [done|exfalso].
    destruct (Hcauses e eq_refl)
      as [(_ & q & c & Hq & Hnone & Hclosed)|[(_ & wr & d & Hfile)
         |[(_ & q & c & wr & d & Hq & Hfile)|(_ & q & Hq & Hnone & Hrefuse)]]].
    + specialize (Hpass q (prefix_snoc_l _ _ _ Hq)). rewrite Hclosed in Hpass.
      destruct Hpass as [?|[->|(c' & Hq' & Hsome)]]; [done| |].
      * by apply snoc_not_prefix in Hq.
      * rewrite (prefix_snoc_inj _ _ _ _ Hq Hq') in Hnone.
        rewrite Hnone in Hsome. by destruct Hsome.
    + specialize (Hpass out (reflexivity _)). by rewrite Hfile in Hpass.
    + specialize (Hpass q (prefix_snoc_l _ _ _ Hq)). by rewrite Hfile in Hpass.
    + specialize (Hpass q Hq). rewrite Hnone in Hpass. congruence.
  - intros s <-. clear Hcreation Hcauses. subst creation.
    destruct (prepare_cases (os := posix child) g s)
      as [(e & w1 & E1 & Hp)|[(w1 & e & w2 & E1 & E2 & Hp)
         |(w1 & o & w2 & r3 & w3 & r4 & w4 & E1 & E2 & E3 & E4 & Hp)]];
      unfold emitted; rewrite Hp; cbn [snd trace];
      rewrite drop_app_length, E1; cbn [fst raised]; eauto.
Qed.

Example sample_used_tree : tree_shaped (files Sample.used).
Proof.
  split; [reflexivity|].
  apply (bool_decide_unpack _). vm_compute. exact I.
Qed.

Lemma makedirs_existing_or_blocked_witness :
  @os_makedirs World path (posix (Sample.exits 0)) "/r/annotator-out" true
     Sample.used = (Ok tt, Sample.used).
Proof.
  refine (proj1 (makedirs_existing_or_blocked (Sample.exits 0) Sample.env
            Sample.g Sample.used _ _) _).
  - reflexivity.
  - split; [reflexivity|]. apply (bool_decide_unpack _). vm_compute. exact I.
  - vm_compute. reflexivity.
Defined.

(** C9 as stated fails: on a device with no space left the output
    directory cannot be made, although it is missing, no directory on the
    way to it is closed to the process and no file is on the way. *)
Lemma makedirs_only_when_counterexample :
  module_globals Sample.env = Ok Sample.g ∧
  tree_shaped (files Sample.full) ∧
  fst (@os_makedirs World path (posix (Sample.exits 0)) (OUT_DIR Sample.g) true
         Sample.full) = Raise OSError ∧
  resolve Sample.full (OUT_DIR Sample.g) = ["r"; "annotator-out"] ∧
  files Sample.full !! [] = Some (Dir true) ∧
  files Sample.full !! ["r"] = Some (Dir true) ∧
  files Sample.full !! ["r"; "annotator-out"] = None.
Proof.
  split_and!; try (vm_compute; reflexivity).
  split; [reflexivity|]. apply (bool_decide_unpack _). vm_compute. exact I.
Qed.

(** ** The child is started after [prepare] *)

(** C6: whenever a call of [run_annotator] starts the child, [prepare]
    has returned in this same call: the calls made are exactly the making
    of the output directory, the opening, writing and closing of
    [paths.tsv], none of which raised, and then the start of the child
    with the argument list; and the child runs in the world that
    [prepare] left, in which the output directory is a directory and
    [paths.tsv] holds the line. *)
Theorem child_started_after_prepare child env g (s : state World) args err :
  module_globals env = Ok g →
  EvCall args err ∈ emitted (run_annotator (os := posix child) g) s →
  ∃ s1,
    prepare (os := posix child) g s = (Ok tt, s1) ∧
    emitted (prepare (os := posix child) g) s =
      [EvMakedirs (OUT_DIR g) true None;
       EvOpen (OUT_DIR g +:+ "/paths.tsv") None;
       EvWrite ((OUT_DIR g +:+ "/checker.xml") +:+
                String TAB ((OUT_DIR g +:+ "/scanner.xml") +:+
                            String NL EmptyString)) None;
       EvClose None] ∧
    emitted (run_annotator (os := posix child) g) s =
      emitted (prepare (os := posix child) g) s ++ [EvCall args err] ∧
    commands g = Ok args ∧
    isdir (files (world s1)) (resolve (world s) (OUT_DIR g)) = true ∧
    files (world s1) !! (resolve (world s) (OUT_DIR g) ++ ["paths.tsv"]) =
      Some (File true
              ((OUT_DIR g +:+ "/checker.xml") +:+
               String TAB ((OUT_DIR g +:+ "/scanner.xml") +:+
                           String NL EmptyString))) ∧
    err = raised (fst (child args (files (world s1)))) ∧
    files (world (snd (run_annotator (os := posix child) g s))) =
      snd (child args (files (world s1))).
Proof.
  intros Hg Hin.
  destruct (call_in_run (os := posix child) g s args err Hin)
    as (Hc & Hem & _).
  destruct (run_annotator_cases (os := posix child) g s)
    as [(e & s1 & Hp & Hr)|(s1 & args' & r5 & w5 & Hp & Hc' & E5 & Hr)].
  { exfalso. unfold emitted in Hem. rewrite Hr in Hem. cbn [snd] in Hem.
    destruct (prepare_emitted (os := posix child) g s)
      as [[e1 E]|[[e2 E]|(e3 & e4 & E)]];
      unfold emitted in E; rewrite Hp in E; cbn [snd] in E;
      rewrite E in Hem; unfold prepare_events in Hem; by simplify_eq. }
  rewrite Hc in Hc'. simplify_eq.
  assert (emitted (prepare (os := posix child) g) s = prepare_events g) as Hpe.
  { unfold emitted. rewrite Hp. cbn [snd].
    by rewrite (prepare_ok_trace _ _ _ Hp), drop_app_length. }
  destruct (posix_prepare_ok_file child g s s1) as (Hdir & Hline);
    [by eapply globals_out_dir_not_empty|done|].
  cbn [os_call posix] in E5. unfold posix_call in E5.
  destruct (child args' (files (world s1))) as [r fs'] eqn:Echild.
  simplify_eq.
  exists s1. split_and!; try done.
  - by rewrite Hem, Hpe.
  - unfold emitted in Hem. rewrite Hr in Hem. cbn [snd trace] in Hem.
    rewrite (prepare_ok_trace _ _ _ Hp), <- (assoc_L (++)),
      drop_app_length in Hem.
    apply app_inv_head in Hem. rewrite Echild. by simplify_eq/=.
  - by rewrite Hr, Echild.
Qed.

Lemma child_started_after_prepare_witness :
  ∃ s1,
    prepare (os := posix (Sample.exits 0)) Sample.g (Sample.start Sample.fresh)
      = (Ok tt, s1) ∧
    isdir (files (world s1)) ["r"; "annotator-out"] = true.
Proof.
  destruct (child_started_after_prepare (Sample.exits 0) Sample.env Sample.g
              (Sample.start Sample.fresh)
              ["java"; "-jar"; "/var/core.jar"; "-d"; "/r/annotator-out";
               "-bc"; "cd /r && ./build.sh";
               "-cp"; "/r/annotator-out/paths.tsv";
               "-i"; "edu.Initializer";
               "-n"; "com.example.x.ucrtainting.qual.RUntainted";
               "-cn"; "UCRTaint"; "--depth"; "25"]
              None)
    as (s1 & Hp & _ & _ & _ & Hdir & _).
  - reflexivity.
  - apply list_elem_of_In. vm_compute. do 4 right. left. reflexivity.
  - exists s1. split; [exact Hp|exact Hdir].
Defined.

(** * Further properties of the script *)

(** ** How the import ends *)

(** X1: the three assignments at the top of the module end in one of three
    ways, decided in this order: with [IndexError] when the resolved
    location of the script has fewer than two components, so that there is
    no directory two levels up; else with [RuntimeError] when no home
    directory can be determined; else with the globals, the archive path
    being [/var/core.jar].  In the two failing cases the script ends with
    that exception before it makes any library call, on any platform: no
    directory is made, no file written, no child started. *)
Theorem import_outcome {W H} {os : OS W H} env :
  module_globals env =
    (if decide (length (resolved_file env) < 2) then Raise IndexError
     else
       match home_dir env with
       | None => Raise RuntimeError
       | Some _ =>
           Ok {| REPO := str_path (parent (parent (resolved_file env)));
                 OUT_DIR := str_path (parent (parent (resolved_file env)))
                            +:+ "/annotator-out";
                 ANNOTATOR_JAR := "/var/core.jar" |}
       end) ∧
  (∀ (s : state W) e,
      module_globals env = Raise e →
      launcher env s = (Raise e, s) ∧ emitted (launcher env) s = []).
Proof.
  split.
  - unfold module_globals, Path_home.
    destruct (parents (resolved_file env) 1) as [anchor|e] eqn:Ep.
    + pose proof (parents_1 _ _ Ep) as ->.
      unfold parents in Ep. repeat case_decide; try done; try lia.
      cbn [rbind]. rewrite format_out_dir_eq. cbn [rbind].
      by destruct (home_dir env).
    + unfold parents in Ep. repeat case_decide; try done; try lia.
      by simplify_eq.
  - intros s e He. unfold emitted, launcher, bind, lift. rewrite He.
    cbn [snd]. by rewrite drop_all.
Qed.

(** ** Where the output directory is *)

Lemma string_app_empty_r s : s +:+ EmptyString = s.
Proof. induction s as [|c s IH]; [done|]. by rewrite string_app_cons, IH. Qed.

Lemma split_from_name cur c s :
  count_char "/" c = 0 → split_from cur (c +:+ s) = split_from (cur +:+ c) s.
Proof.
  revert cur. induction c as [|d c IH]; intros cur Hc.
  - by rewrite string_app_empty_l, string_app_empty_r.
  - cbn [count_char] in Hc. rewrite string_app_cons. cbn [split_from].
    destruct (Ascii.eqb d "/"); [lia|].
    rewrite IH by lia. by rewrite string_app_assoc.
Qed.

Lemma split_from_join cur (p : path) :
  cur ≠ EmptyString →
  split_from cur (join_parts p) = cur :: split_from EmptyString (join_parts p).
Proof.
  intros Hcur. destruct p as [|c p]; cbn.
  - by destruct cur.
  - by destruct cur.
Qed.

Lemma components_join_parts (p : path) :
  Forall file_name p → components (join_parts p) = p.
Proof.
  unfold components. induction 1 as [|c p [Hne Hslash] _ IH]; [done|].
  cbn [join_parts]. rewrite string_app_cons, string_app_empty_l.
  cbn [split_from]. replace (Ascii.eqb "/" "/") with true by done.
  rewrite split_from_name, string_app_empty_l by done.
  by rewrite split_from_join, IH.
Qed.

Lemma resolve_str_path w (p : path) :
  Forall file_name p → resolve w (str_path p) = p.
Proof.
  intros Hp. destruct p as [|c p]; [done|].
  unfold resolve, str_path.
  replace (is_absolute (join_parts (c :: p))) with true by done.
  by rewrite components_join_parts.
Qed.

(** X2: when the components of the resolved location of the script are
    file names, the strings in the globals name, in every world and
    whatever the working directory of the process is, the directory two
    levels above the script, the entry [annotator-out] of that directory,
    and the entry [paths.tsv] of that one; this holds also for a script
    two levels below the root, where the string of the output directory
    begins with two slashes. *)
Theorem output_directory_location env g (w : World) :
  Forall file_name (resolved_file env) →
  module_globals env = Ok g →
  let root := parent (parent (resolved_file env)) in
  resolve w (REPO g) = root ∧
  resolve w (OUT_DIR g) = root ++ ["annotator-out"] ∧
  resolve w (OUT_DIR g +:+ "/paths.tsv") = root ++ ["annotator-out"; "paths.tsv"].
Proof.
  intros Hnames Hg root. inv_globals Hg. cbn [REPO OUT_DIR].
  pose proof (parents_1 _ _ Hanchor) as ->. fold root.
  assert (Forall file_name root) as Hroot.
  { unfold root, parent. by do 2 apply Forall_take. }
  assert (str_path root ≠ EmptyString) as Hne.
  { destruct (str_path_absolute root) as [rest ->]. done. }
  rewrite !resolve_app_sep, resolve_str_path by
    (done || apply string_app_not_empty).
  split_and!; try done. by rewrite <- (assoc_L (++)).
Qed.

Lemma output_directory_location_witness :
  resolve Sample.locked (OUT_DIR Sample.g) = ["r"; "annotator-out"] ∧
  resolve Sample.locked "//annotator-out" = ["annotator-out"].
Proof.
  split.
  - refine (proj1 (proj2 (output_directory_location Sample.env Sample.g
              Sample.locked _ eq_refl))).
    repeat constructor; done.
  - refine (proj1 (proj2 (output_directory_location
              {| resolved_file := ["analysis"; "annotator.py"];
                 home_dir := Some []; environ := []; argv := [] |}
              {| REPO := "/"; OUT_DIR := "//annotator-out";
                 ANNOTATOR_JAR := "/var/core.jar" |}
              Sample.locked _ eq_refl))).
    repeat constructor; done.
Defined.

(** ** The fields of the line *)

Lemma count_char_cons c d s :
  count_char c (String d s) = (if Ascii.eqb d c then 1 else 0) + count_char c s.
Proof. reflexivity. Qed.

Lemma count_char_app c s t :
  count_char c (s +:+ t) = count_char c s + count_char c t.
Proof.
  induction s as [|d s IH]; [done|].
  rewrite string_app_cons. cbn [count_char]. rewrite IH. lia.
Qed.

(** X3: the line is put together without any escaping: it ends with a
    newline, and it has one tab more than twice the tabs of the output
    directory string, and one newline more than twice its newlines.  So it
    is a record of two tab-separated fields on one line exactly when the
    path of the checkout has no tab and no newline in it. *)
Theorem line_fields g line :
  paths_line g = Ok line →
  (∃ body, line = body +:+ String NL EmptyString) ∧
  count_char TAB line = 1 + 2 * count_char TAB (OUT_DIR g) ∧
  count_char NL line = 1 + 2 * count_char NL (OUT_DIR g) ∧
  (count_char TAB line = 1 ∧ count_char NL line = 1 ↔
   count_char TAB (OUT_DIR g) = 0 ∧ count_char NL (OUT_DIR g) = 0).
Proof.
  rewrite paths_line_eq. intros [= <-]. unfold line_text.
  assert (count_char TAB (line_text (OUT_DIR g))
          = 1 + 2 * count_char TAB (OUT_DIR g)) as Htab.
  { unfold line_text. rewrite count_char_app, count_char_cons, !count_char_app.
    change (count_char TAB "/checker.xml") with 0.
    change (count_char TAB "/scanner.xml") with 0.
    change (count_char TAB (String NL EmptyString)) with 0.
    change (Ascii.eqb TAB TAB) with true. cbv iota. lia. }
  assert (count_char NL (line_text (OUT_DIR g))
          = 1 + 2 * count_char NL (OUT_DIR g)) as Hnl.
  { unfold line_text. rewrite count_char_app, count_char_cons, !count_char_app.
    change (count_char NL "/checker.xml") with 0.
    change (count_char NL "/scanner.xml") with 0.
    change (count_char NL (String NL EmptyString)) with 1.
    change (Ascii.eqb TAB NL) with false. cbv iota. lia. }
  unfold line_text in Htab, Hnl. split_and!; try done; try lia.
  eexists ((OUT_DIR g +:+ "/checker.xml") +:+
           String TAB (OUT_DIR g +:+ "/scanner.xml")).
  by rewrite !string_app_assoc, !string_app_cons, !string_app_assoc.
Qed.

Lemma line_fields_witness :
  count_char TAB (line_text "/r/annotator-out") = 1 ∧
  count_char TAB (line_text (String TAB "r/annotator-out")) = 3.
Proof.
  split.
  - pose proof (line_fields Sample.g (line_text "/r/annotator-out") eq_refl)
      as (_ & Htab & _).
    exact Htab.
  - pose proof (line_fields
                  {| REPO := String TAB "r";
                     OUT_DIR := String TAB "r/annotator-out";
                     ANNOTATOR_JAR := "/var/core.jar" |}
                  (line_text (String TAB "r/annotator-out")) eq_refl)
      as (_ & Htab & _).
    exact Htab.
Defined.

(** ** Returning and raising, on any platform *)

(** X4: [run_annotator] has no exception of its own: on every platform
    and from every state it returns exactly when none of the library calls
    it made raised, and then it has made five calls, the last of which
    started the child. *)
Theorem run_returns_iff {W H} {os : OS W H} g (s : state W) :
  (fst (run_annotator g s) = Ok tt ↔
   Forall (λ ev, event_error ev = None) (emitted (run_annotator g) s)) ∧
  (fst (run_annotator g s) = Ok tt →
   length (emitted (run_annotator g) s) = 5 ∧
   ∃ args,
     commands g = Ok args ∧
     last (emitted (run_annotator g) s) = Some (EvCall args None)).
Proof.
  destruct (run_annotator_shape g s) as [e|e|we ce e Hwe|args err Hc].
  - split; [split|]; try done. intros Hall. apply Forall_cons in Hall as [? _].
    done.
  - split; [split|]; try done. intros Hall.
    apply Forall_cons in Hall as [_ Hall]. apply Forall_cons in Hall as [? _].
    done.
  - split; [split|]; try done. intros Hall.
    do 2 apply Forall_cons in Hall as [_ Hall].
    apply Forall_cons in Hall as [Hw Hall]. apply Forall_cons in Hall as [Hcl _].
    cbn in Hw, Hcl. subst. done.
  - unfold prepare_events. destruct err as [e|]; cbn [outcome].
    + split; [split|]; try done. intros Hall.
      apply Forall_app in Hall as [_ Hall]. apply Forall_cons in Hall as [? _].
      done.
    + split; [split|]; try done.
      * intros _. by repeat constructor.
      * intros _. split; [done|]. by exists args.
Qed.

(** X5: the file that [prepare] opens is never left open: on every
    platform, whenever the open returned, the calls made begin with the
    making of the directory, the open, one write and one close, in this
    order, whether the write raised or not; and the child is started, if
    at all, only after that close, when neither write nor close raised. *)
Theorem opened_file_is_closed {W H} {os : OS W H} g (s : state W) name :
  EvOpen name None ∈ emitted (run_annotator g) s →
  ∃ we ce rest,
    emitted (run_annotator g) s =
      [EvMakedirs (OUT_DIR g) true None;
       EvOpen name None;
       EvWrite ((OUT_DIR g +:+ "/checker.xml") +:+
                String TAB ((OUT_DIR g +:+ "/scanner.xml") +:+
                            String NL EmptyString)) we;
       EvClose ce] ++ rest ∧
    (rest = [] ∧ is_Some (with_error we ce) ∨
     we = None ∧ ce = None ∧ ∃ args err, rest = [EvCall args err]).
Proof.
  intros Hin.
  destruct (run_annotator_shape g s) as [e|e|we ce e Hwe|args err Hc].
  - apply list_elem_of_singleton in Hin. done.
  - rewrite !elem_of_cons, elem_of_nil in Hin. by destruct_or!.
  - rewrite !elem_of_cons, elem_of_nil in Hin. destruct_or!; simplify_eq.
    exists we, ce, []. split; [done|]. left. split; [done|]. rewrite Hwe. eauto.
  - unfold prepare_events in *.
    rewrite elem_of_app, !elem_of_cons, !elem_of_nil in Hin.
    destruct_or!; simplify_eq.
    exists None, None, [EvCall args err]. split; [done|]. right. eauto.
Qed.

Lemma opened_file_is_closed_witness :
  ∃ we ce rest,
    emitted (run_annotator (os := posix Sample.missing) Sample.g)
      (Sample.start Sample.fresh) =
      [EvMakedirs "/r/annotator-out" true None;
       EvOpen "/r/annotator-out/paths.tsv" None;
       EvWrite (("/r/annotator-out" +:+ "/checker.xml") +:+
                String TAB (("/r/annotator-out" +:+ "/scanner.xml") +:+
                            String NL EmptyString)) we;
       EvClose ce] ++ rest.
Proof.
  destruct (opened_file_is_closed (os := posix Sample.missing) Sample.g
              (Sample.start Sample.fresh) "/r/annotator-out/paths.tsv")
    as (we & ce & rest & Hem & _).
  - apply list_elem_of_In. vm_compute. right. left. reflexivity.
  - exists we, ce, rest. exact Hem.
Defined.

(** ** What [prepare] does to the file tree *)




(** X8: [open] truncates before anything is written.  In a file tree
    where the output directory is there and [paths.tsv] is a file that
    the process may open, if the line has no encoding in the encoding of
    the file, or the device refuses the data when the file is closed,
    then [prepare] raises and leaves [paths.tsv] empty: its former
    content is lost, and nothing else in the tree is changed. *)
Theorem prepare_failed_write_truncates child env g (s : state World) old :
  module_globals env = Ok g →
  let w := world s in
  let out := resolve w (OUT_DIR g) in
  let p := out ++ ["paths.tsv"] in
  let line :=
    (OUT_DIR g +:+ "/checker.xml") +:+
    String TAB ((OUT_DIR g +:+ "/scanner.xml") +:+ String NL EmptyString) in
  let after := prepare (os := posix child) g s in
  tree_shaped (files w) →
  isdir (files w) out = true →
  files w !! p = Some (File true old) →
  refuses_open (device w) p = false →
  encodable (device w) line = false ∨ refuses_flush (device w) p line = true →
  (∃ e, fst after = Raise e) ∧
  files (world (snd after)) = <[p := File true EmptyString]> (files w).
Proof.
  intros Hg w out p line after Htree Hdir Hfile Hop Hbad.
  pose proof (globals_out_dir_not_empty _ _ Hg) as Hout.
  assert (makedirs_rev (refuses_mkdir (device w)) true (reverse out) (files w)
          = (Ok tt, files w)) as Emk.
  { apply makedirs_rev_present; rewrite reverse_involutive; [done|].
    apply tree_shaped_parent; [done|].
    apply isdir_true in Hdir as [wr ->]. eauto. }
  destruct (posix_prepare_world child g s Hout) as (r1 & fs1 & Emk' & Hcases).
  fold w out p after in Emk', Hcases. rewrite Emk in Emk'. simplify_eq.
  change (line_text (OUT_DIR g)) with line in Hcases.
  assert (encodable (device w) line && negb (refuses_flush (device w) p line)
          = false) as Hcond.
  { destruct Hbad as [-> | ->]; [done|]. by rewrite andb_false_r. }
  rewrite Hcond in Hcases.
  destruct Hcases as [(e & [=] & _)|[(_ & e & Hopen & _)|(_ & _ & He & ->)]];
    [|by eauto].
  unfold sys_open_w in Hopen. by rewrite Hfile, Hop in Hopen.
Qed.

Lemma prepare_failed_write_truncates_witness :
  files (world (snd (prepare (os := posix (Sample.exits 0)) Sample.g
                       (Sample.start Sample.undecodable))))
    !! ["r"; "annotator-out"; "paths.tsv"] = Some (File true EmptyString) ∧
  files (world (snd (prepare (os := posix (Sample.exits 0)) Sample.g
                       (Sample.start Sample.no_space))))
    !! ["r"; "annotator-out"; "paths.tsv"] = Some (File true EmptyString).
Proof.
  split.
  - pose proof (prepare_failed_write_truncates (Sample.exits 0) Sample.env
                  Sample.g (Sample.start Sample.undecodable) "stale" eq_refl)
      as Hw.
    cbv zeta in Hw. destruct Hw as [_ Hw].
    + split; [reflexivity|]. apply (bool_decide_unpack _). vm_compute. exact I.
    + reflexivity.
    + vm_compute. reflexivity.
    + reflexivity.
    + left. reflexivity.
    + rewrite Hw. vm_compute. reflexivity.
  - pose proof (prepare_failed_write_truncates (Sample.exits 0) Sample.env
                  Sample.g (Sample.start Sample.no_space) "stale" eq_refl)
      as Hw.
    cbv zeta in Hw. destruct Hw as [_ Hw].
    + split; [reflexivity|]. apply (bool_decide_unpack _). vm_compute. exact I.
    + reflexivity.
    + vm_compute. reflexivity.
    + reflexivity.
    + right. reflexivity.
    + rewrite Hw. vm_compute. reflexivity.
Defined.

(** ** The working directory *)

Lemma resolve_absolute w1 w2 name :
  is_absolute name = true → resolve w1 name = resolve w2 name.
Proof. unfold resolve. by intros ->. Qed.

Lemma globals_out_dir_absolute env g :
  module_globals env = Ok g → is_absolute (OUT_DIR g) = true.
Proof.
  intros Hg. inv_globals Hg. cbn [OUT_DIR].
  by destruct (str_path_absolute anchor) as [rest ->].
Qed.

(** X10: [prepare] does not depend on the working directory of the
    process: the names it passes to [os.makedirs] and [open] are
    absolute, so from two states that differ only in the working
    directory it ends the same way and leaves the same file tree. *)
Theorem prepare_anywhere child env g (s1 s2 : state World) :
  module_globals env = Ok g →
  files (world s1) = files (world s2) →
  device (world s1) = device (world s2) →
  pending (world s1) = pending (world s2) →
  let end1 := prepare (os := posix child) g s1 in
  let end2 := prepare (os := posix child) g s2 in
  fst end1 = fst end2 ∧
  files (world (snd end1)) = files (world (snd end2)) ∧
  pending (world (snd end1)) = pending (world (snd end2)).
Proof.
  intros Hg Hfiles Hdev Hpend end1 end2. subst end1 end2.
  pose proof (globals_out_dir_not_empty _ _ Hg) as Hout.
  pose proof (globals_out_dir_absolute _ _ Hg) as Habs.
  destruct (posix_prepare_world child g s1 Hout) as (r1 & fs1 & Emk & Hc).
  destruct (posix_prepare_world child g s2 Hout) as (r1' & fs1' & Emk' & Hc').
  rewrite (resolve_absolute (world s1) (world s2)) in Emk, Hc by done.
  rewrite Hfiles, Hdev in Emk. rewrite ?Hdev, ?Hpend in Hc.
  rewrite Emk in Emk'. simplify_eq.
  destruct Hc as [(e & -> & -> & ->)|[(-> & e & Hop & -> & ->)|(-> & Hop & Hend)]];
    destruct Hc' as [(e' & ? & -> & ->)|[(? & e' & Hop' & -> & ->)|(? & Hop' & Hend')]];
    simplify_eq; try done;
    try (rewrite Hop in Hop'; by simplify_eq).
  destruct (encodable _ _ && negb (refuses_flush _ _ _));
    by destruct Hend as [-> ->], Hend' as [-> ->].
Qed.

Lemma prepare_anywhere_witness :
  fst (prepare (os := posix (Sample.exits 0)) Sample.g
         (Sample.start Sample.fresh)) =
  fst (prepare (os := posix (Sample.exits 0)) Sample.g
         (Sample.start {| files := files Sample.fresh; cwd := ["tmp"];
                          device := Sample.sound; pending := ∅ |})).
Proof.
  refine (proj1 (prepare_anywhere (Sample.exits 0) Sample.env
            Sample.g (Sample.start Sample.fresh)
            (Sample.start {| files := files Sample.fresh; cwd := ["tmp"];
                             device := Sample.sound; pending := ∅ |})
            eq_refl _ _ _)); reflexivity.
Defined.

Lemma import_outcome_witness :
  launcher (os := posix (Sample.exits 0))
    {| resolved_file := ["annotator.py"]; home_dir := None;
       environ := []; argv := [] |}
    (Sample.start Sample.fresh) =
  (Raise IndexError, Sample.start Sample.fresh).
Proof.
  refine (proj1 (proj2 (import_outcome (os := posix (Sample.exits 0))
            {| resolved_file := ["annotator.py"]; home_dir := None;
               environ := []; argv := [] |})
            (Sample.start Sample.fresh) IndexError _)).
  reflexivity.
Defined.
